(** * The keyword tracker (main-slack.py): search, filter, rank, notify

    A shallow embedding of the script [main-slack.py] and the properties of
    its filter / format / dispatch pipeline.

    Modelling conventions.
    - A Python [str] is carried as a [string], its UTF-8 encoding.
      Concatenation, [startswith] and [in] work on the bytes, which for
      encodings gives what they give on the characters.  [str.lower],
      [str.strip] and the regex class [\S] depend on the characters: they
      decode the string, work on the code points as Python does (Unicode
      14.0, the tables of CPython 3.11) and encode the result.  The
      functions on code points take any list of them; a [str] with a lone
      surrogate, which has no encoding, is a list of code points only.
    - A Python [dict] is a [gmap]; [d.get(k, v)] is [default v (d !! k)] and
      [d[k]] raises [KeyError] when the key is absent.
    - Python integers are [Z]; [str(n)] inside an f-string is [pretty n].
    - The outside world (the clock, the search API and the webhook) is an
      [Env]; the effects of the run (search calls issued, payloads posted,
      log records written) are accumulated in a [World], threaded through a
      state-and-exception monad [M].
    - [requests.post] answers every call with a response; a failure of the
      transport itself, which the script does not catch, is not modelled.
      The exceptions of the search call are, since the script catches
      them, and so are the two [KeyError]s the script can raise itself. *)

From Stdlib Require Import ZArith Ascii String List Bool Lia.
From Stdlib Require Import Sorting.Sorted Sorting.Permutation.
From stdpp Require Import gmap strings list fin_maps pretty.

Local Open Scope string_scope.
Local Open Scope list_scope.
Local Open Scope Z_scope.

(* ===================================================================== *)
(** ** Strings, as Python handles them *)
(* ===================================================================== *)

Definition dquote : ascii := Eval cbv in ascii_of_nat 34.
Definition newline : ascii := Eval cbv in ascii_of_nat 10.

(** [s.startswith(p)], returning what follows the prefix. *)
Fixpoint strip_prefix (p s : string) : option string :=
  match p with
  | EmptyString => Some s
  | String a p' =>
      match s with
      | EmptyString => None
      | String b s' => if Ascii.eqb a b then strip_prefix p' s' else None
      end
  end.

(** [needle in hay] *)
Fixpoint str_in (needle hay : string) : bool :=
  match strip_prefix needle hay with
  | Some _ => true
  | None =>
      match hay with
      | EmptyString => false
      | String _ hay' => str_in needle hay'
      end
  end.

(** [sep.join(l)] *)
Fixpoint join (sep : string) (l : list string) : string :=
  match l with
  | [] => ""
  | [x] => x
  | x :: l' => x +:+ sep +:+ join sep l'
  end.

(* ===================================================================== *)
(** ** Characters: from UTF-8 to code points and back *)
(* ===================================================================== *)

Local Open Scope N_scope.

(** A byte of the form 10xxxxxx. *)
Definition is_continuation (b : N) : bool := (0x80 <=? b) && (b <=? 0xBF).

(** A byte that belongs to no well-formed sequence is carried along as a
    value of its own, beyond the code points; it is not ASCII, and
    [encode_char] gives it back. *)
Definition stray (b : N) : N := 0x110000 + b.

(** The code point of a well-formed sequence of two, three or four bytes
    (shortest form, no surrogate, at most U+10FFFF). *)
Definition two_bytes (x y : N) : option N :=
  let cp := (x - 0xC0) * 0x40 + (y - 0x80) in
  if (0xC2 <=? x) && (x <=? 0xDF) && is_continuation y && (0x80 <=? cp)
  then Some cp else None.

Definition three_bytes (x y z : N) : option N :=
  let cp := (x - 0xE0) * 0x1000 + (y - 0x80) * 0x40 + (z - 0x80) in
  if (0xE0 <=? x) && (x <=? 0xEF) && is_continuation y && is_continuation z
     && (0x800 <=? cp) && negb ((0xD800 <=? cp) && (cp <=? 0xDFFF))
  then Some cp else None.

Definition four_bytes (x y z u : N) : option N :=
  let cp := (x - 0xF0) * 0x40000 + (y - 0x80) * 0x1000
            + (z - 0x80) * 0x40 + (u - 0x80) in
  if (0xF0 <=? x) && (x <=? 0xF4) && is_continuation y && is_continuation z
     && is_continuation u && (0x10000 <=? cp) && (cp <=? 0x10FFFF)
  then Some cp else None.

(** The characters of a run of bytes that are not ASCII. *)
Fixpoint decode_run (r : string) : list N :=
  match r with
  | EmptyString => []
  | String a r1 =>
      let x := N_of_ascii a in
      let otherwise := stray x :: decode_run r1 in
      match r1 with
      | EmptyString => otherwise
      | String b r2 =>
          let y := N_of_ascii b in
          match two_bytes x y with
          | Some cp => cp :: decode_run r2
          | None =>
              match r2 with
              | EmptyString => otherwise
              | String c r3 =>
                  let z := N_of_ascii c in
                  match three_bytes x y z with
                  | Some cp => cp :: decode_run r3
                  | None =>
                      match r3 with
                      | EmptyString => otherwise
                      | String d r4 =>
                          match four_bytes x y z (N_of_ascii d) with
                          | Some cp => cp :: decode_run r4
                          | None => otherwise
                          end
                      end
                  end
              end
          end
      end
  end.

(** The characters of a string: an ASCII byte is a character, and so ends
    the run of other bytes gathered in [pending]. *)
Fixpoint decode_from (pending s : string) : list N :=
  match s with
  | EmptyString => decode_run pending
  | String c s' =>
      if N_of_ascii c <? 0x80
      then decode_run pending ++ N_of_ascii c :: decode_from "" s'
      else decode_from (pending +:+ String c "") s'
  end.

Definition decode (s : string) : list N := decode_from "" s.

Definition encode_char (c : N) : string :=
  let byte n := ascii_of_N n in
  if c <? 0x80 then String (byte c) ""
  else if c <? 0x800 then
    String (byte (0xC0 + c / 0x40)) (String (byte (0x80 + c mod 0x40)) "")
  else if c <? 0x10000 then
    String (byte (0xE0 + c / 0x1000))
      (String (byte (0x80 + (c / 0x40) mod 0x40))
         (String (byte (0x80 + c mod 0x40)) ""))
  else if c <? 0x110000 then
    String (byte (0xF0 + c / 0x40000))
      (String (byte (0x80 + (c / 0x1000) mod 0x40))
         (String (byte (0x80 + (c / 0x40) mod 0x40))
            (String (byte (0x80 + c mod 0x40)) "")))
  else String (byte (0x80 + (c - 0x110000) mod 0x80)) "".

Fixpoint encode (l : list N) : string :=
  match l with
  | [] => ""
  | c :: l' => encode_char c +:+ encode l'
  end.

(** [c.isspace()], which is also the class [\s] of the [re] module on
    [str] patterns: the characters of bidirectional type WS, B or S and of
    category Zs. *)
Definition isspace (c : N) : bool :=
  ((0x09 <=? c) && (c <=? 0x0D)) || ((0x1C <=? c) && (c <=? 0x20))
  || (c =? 0x85) || (c =? 0xA0) || (c =? 0x1680)
  || ((0x2000 <=? c) && (c <=? 0x200A))
  || (c =? 0x2028) || (c =? 0x2029) || (c =? 0x202F) || (c =? 0x205F)
  || (c =? 0x3000).

(* ===================================================================== *)
(** ** [str.lower()] *)
(* ===================================================================== *)

(** The tables are those of Unicode 14.0, as CPython 3.11 has them.  An
    entry (first, last, step, image) of the first one maps the characters
    first, first + step, ..., last to image, image + step, ...; the entries
    are in ascending order. *)
Definition lower_ascii_entry : N * N * N * N := (0x41, 0x5A, 1, 0x61).

Definition lower_table_above_ascii : list (N * N * N * N) :=
  [ (0xC0, 0xD6, 1, 0xE0); (0xD8, 0xDE, 1, 0xF8);
    (0x100, 0x12E, 2, 0x101); (0x132, 0x136, 2, 0x133); (0x139, 0x147, 2, 0x13A);
    (0x14A, 0x176, 2, 0x14B); (0x178, 0x178, 1, 0xFF); (0x179, 0x17D, 2, 0x17A);
    (0x181, 0x181, 1, 0x253); (0x182, 0x184, 2, 0x183); (0x186, 0x186, 1, 0x254);
    (0x187, 0x187, 1, 0x188); (0x189, 0x18A, 1, 0x256); (0x18B, 0x18B, 1, 0x18C);
    (0x18E, 0x18E, 1, 0x1DD); (0x18F, 0x18F, 1, 0x259); (0x190, 0x190, 1, 0x25B);
    (0x191, 0x191, 1, 0x192); (0x193, 0x193, 1, 0x260); (0x194, 0x194, 1, 0x263);
    (0x196, 0x196, 1, 0x269); (0x197, 0x197, 1, 0x268); (0x198, 0x198, 1, 0x199);
    (0x19C, 0x19C, 1, 0x26F); (0x19D, 0x19D, 1, 0x272); (0x19F, 0x19F, 1, 0x275);
    (0x1A0, 0x1A4, 2, 0x1A1); (0x1A6, 0x1A6, 1, 0x280); (0x1A7, 0x1A7, 1, 0x1A8);
    (0x1A9, 0x1A9, 1, 0x283); (0x1AC, 0x1AC, 1, 0x1AD); (0x1AE, 0x1AE, 1, 0x288);
    (0x1AF, 0x1AF, 1, 0x1B0); (0x1B1, 0x1B2, 1, 0x28A); (0x1B3, 0x1B5, 2, 0x1B4);
    (0x1B7, 0x1B7, 1, 0x292); (0x1B8, 0x1B8, 1, 0x1B9); (0x1BC, 0x1BC, 1, 0x1BD);
    (0x1C4, 0x1C4, 1, 0x1C6); (0x1C5, 0x1C5, 1, 0x1C6); (0x1C7, 0x1C7, 1, 0x1C9);
    (0x1C8, 0x1C8, 1, 0x1C9); (0x1CA, 0x1CA, 1, 0x1CC); (0x1CB, 0x1DB, 2, 0x1CC);
    (0x1DE, 0x1EE, 2, 0x1DF); (0x1F1, 0x1F1, 1, 0x1F3); (0x1F2, 0x1F4, 2, 0x1F3);
    (0x1F6, 0x1F6, 1, 0x195); (0x1F7, 0x1F7, 1, 0x1BF); (0x1F8, 0x21E, 2, 0x1F9);
    (0x220, 0x220, 1, 0x19E); (0x222, 0x232, 2, 0x223); (0x23A, 0x23A, 1, 0x2C65);
    (0x23B, 0x23B, 1, 0x23C); (0x23D, 0x23D, 1, 0x19A); (0x23E, 0x23E, 1, 0x2C66);
    (0x241, 0x241, 1, 0x242); (0x243, 0x243, 1, 0x180); (0x244, 0x244, 1, 0x289);
    (0x245, 0x245, 1, 0x28C); (0x246, 0x24E, 2, 0x247); (0x370, 0x372, 2, 0x371);
    (0x376, 0x376, 1, 0x377); (0x37F, 0x37F, 1, 0x3F3); (0x386, 0x386, 1, 0x3AC);
    (0x388, 0x38A, 1, 0x3AD); (0x38C, 0x38C, 1, 0x3CC); (0x38E, 0x38F, 1, 0x3CD);
    (0x391, 0x3A1, 1, 0x3B1); (0x3A3, 0x3AB, 1, 0x3C3); (0x3CF, 0x3CF, 1, 0x3D7);
    (0x3D8, 0x3EE, 2, 0x3D9); (0x3F4, 0x3F4, 1, 0x3B8); (0x3F7, 0x3F7, 1, 0x3F8);
    (0x3F9, 0x3F9, 1, 0x3F2); (0x3FA, 0x3FA, 1, 0x3FB); (0x3FD, 0x3FF, 1, 0x37B);
    (0x400, 0x40F, 1, 0x450); (0x410, 0x42F, 1, 0x430); (0x460, 0x480, 2, 0x461);
    (0x48A, 0x4BE, 2, 0x48B); (0x4C0, 0x4C0, 1, 0x4CF); (0x4C1, 0x4CD, 2, 0x4C2);
    (0x4D0, 0x52E, 2, 0x4D1); (0x531, 0x556, 1, 0x561); (0x10A0, 0x10C5, 1, 0x2D00);
    (0x10C7, 0x10C7, 1, 0x2D27); (0x10CD, 0x10CD, 1, 0x2D2D); (0x13A0, 0x13EF, 1, 0xAB70);
    (0x13F0, 0x13F5, 1, 0x13F8); (0x1C90, 0x1CBA, 1, 0x10D0); (0x1CBD, 0x1CBF, 1, 0x10FD);
    (0x1E00, 0x1E94, 2, 0x1E01); (0x1E9E, 0x1E9E, 1, 0xDF); (0x1EA0, 0x1EFE, 2, 0x1EA1);
    (0x1F08, 0x1F0F, 1, 0x1F00); (0x1F18, 0x1F1D, 1, 0x1F10); (0x1F28, 0x1F2F, 1, 0x1F20);
    (0x1F38, 0x1F3F, 1, 0x1F30); (0x1F48, 0x1F4D, 1, 0x1F40); (0x1F59, 0x1F5F, 2, 0x1F51);
    (0x1F68, 0x1F6F, 1, 0x1F60); (0x1F88, 0x1F8F, 1, 0x1F80); (0x1F98, 0x1F9F, 1, 0x1F90);
    (0x1FA8, 0x1FAF, 1, 0x1FA0); (0x1FB8, 0x1FB9, 1, 0x1FB0); (0x1FBA, 0x1FBB, 1, 0x1F70);
    (0x1FBC, 0x1FBC, 1, 0x1FB3); (0x1FC8, 0x1FCB, 1, 0x1F72); (0x1FCC, 0x1FCC, 1, 0x1FC3);
    (0x1FD8, 0x1FD9, 1, 0x1FD0); (0x1FDA, 0x1FDB, 1, 0x1F76); (0x1FE8, 0x1FE9, 1, 0x1FE0);
    (0x1FEA, 0x1FEB, 1, 0x1F7A); (0x1FEC, 0x1FEC, 1, 0x1FE5); (0x1FF8, 0x1FF9, 1, 0x1F78);
    (0x1FFA, 0x1FFB, 1, 0x1F7C); (0x1FFC, 0x1FFC, 1, 0x1FF3); (0x2126, 0x2126, 1, 0x3C9);
    (0x212A, 0x212A, 1, 0x6B); (0x212B, 0x212B, 1, 0xE5); (0x2132, 0x2132, 1, 0x214E);
    (0x2160, 0x216F, 1, 0x2170); (0x2183, 0x2183, 1, 0x2184); (0x24B6, 0x24CF, 1, 0x24D0);
    (0x2C00, 0x2C2F, 1, 0x2C30); (0x2C60, 0x2C60, 1, 0x2C61); (0x2C62, 0x2C62, 1, 0x26B);
    (0x2C63, 0x2C63, 1, 0x1D7D); (0x2C64, 0x2C64, 1, 0x27D); (0x2C67, 0x2C6B, 2, 0x2C68);
    (0x2C6D, 0x2C6D, 1, 0x251); (0x2C6E, 0x2C6E, 1, 0x271); (0x2C6F, 0x2C6F, 1, 0x250);
    (0x2C70, 0x2C70, 1, 0x252); (0x2C72, 0x2C72, 1, 0x2C73); (0x2C75, 0x2C75, 1, 0x2C76);
    (0x2C7E, 0x2C7F, 1, 0x23F); (0x2C80, 0x2CE2, 2, 0x2C81); (0x2CEB, 0x2CED, 2, 0x2CEC);
    (0x2CF2, 0x2CF2, 1, 0x2CF3); (0xA640, 0xA66C, 2, 0xA641); (0xA680, 0xA69A, 2, 0xA681);
    (0xA722, 0xA72E, 2, 0xA723); (0xA732, 0xA76E, 2, 0xA733); (0xA779, 0xA77B, 2, 0xA77A);
    (0xA77D, 0xA77D, 1, 0x1D79); (0xA77E, 0xA786, 2, 0xA77F); (0xA78B, 0xA78B, 1, 0xA78C);
    (0xA78D, 0xA78D, 1, 0x265); (0xA790, 0xA792, 2, 0xA791); (0xA796, 0xA7A8, 2, 0xA797);
    (0xA7AA, 0xA7AA, 1, 0x266); (0xA7AB, 0xA7AB, 1, 0x25C); (0xA7AC, 0xA7AC, 1, 0x261);
    (0xA7AD, 0xA7AD, 1, 0x26C); (0xA7AE, 0xA7AE, 1, 0x26A); (0xA7B0, 0xA7B0, 1, 0x29E);
    (0xA7B1, 0xA7B1, 1, 0x287); (0xA7B2, 0xA7B2, 1, 0x29D); (0xA7B3, 0xA7B3, 1, 0xAB53);
    (0xA7B4, 0xA7C2, 2, 0xA7B5); (0xA7C4, 0xA7C4, 1, 0xA794); (0xA7C5, 0xA7C5, 1, 0x282);
    (0xA7C6, 0xA7C6, 1, 0x1D8E); (0xA7C7, 0xA7C9, 2, 0xA7C8); (0xA7D0, 0xA7D0, 1, 0xA7D1);
    (0xA7D6, 0xA7D8, 2, 0xA7D7); (0xA7F5, 0xA7F5, 1, 0xA7F6); (0xFF21, 0xFF3A, 1, 0xFF41);
    (0x10400, 0x10427, 1, 0x10428); (0x104B0, 0x104D3, 1, 0x104D8); (0x10570, 0x1057A, 1, 0x10597);
    (0x1057C, 0x1058A, 1, 0x105A3); (0x1058C, 0x10592, 1, 0x105B3); (0x10594, 0x10595, 1, 0x105BB);
    (0x10C80, 0x10CB2, 1, 0x10CC0); (0x118A0, 0x118BF, 1, 0x118C0); (0x16E40, 0x16E5F, 1, 0x16E60);
    (0x1E900, 0x1E921, 1, 0x1E922) ].

Definition case_ignorable_table : list (N * N) :=
  [ (0x27, 0x27); (0x2E, 0x2E); (0x3A, 0x3A); (0x5E, 0x5E);
    (0x60, 0x60); (0xA8, 0xA8); (0xAD, 0xAD); (0xAF, 0xAF);
    (0xB4, 0xB4); (0xB7, 0xB8); (0x2B0, 0x36F); (0x374, 0x375);
    (0x37A, 0x37A); (0x384, 0x385); (0x387, 0x387); (0x483, 0x489);
    (0x559, 0x559); (0x55F, 0x55F); (0x591, 0x5BD); (0x5BF, 0x5BF);
    (0x5C1, 0x5C2); (0x5C4, 0x5C5); (0x5C7, 0x5C7); (0x5F4, 0x5F4);
    (0x600, 0x605); (0x610, 0x61A); (0x61C, 0x61C); (0x640, 0x640);
    (0x64B, 0x65F); (0x670, 0x670); (0x6D6, 0x6DD); (0x6DF, 0x6E8);
    (0x6EA, 0x6ED); (0x70F, 0x70F); (0x711, 0x711); (0x730, 0x74A);
    (0x7A6, 0x7B0); (0x7EB, 0x7F5); (0x7FA, 0x7FA); (0x7FD, 0x7FD);
    (0x816, 0x82D); (0x859, 0x85B); (0x888, 0x888); (0x890, 0x891);
    (0x898, 0x89F); (0x8C9, 0x902); (0x93A, 0x93A); (0x93C, 0x93C);
    (0x941, 0x948); (0x94D, 0x94D); (0x951, 0x957); (0x962, 0x963);
    (0x971, 0x971); (0x981, 0x981); (0x9BC, 0x9BC); (0x9C1, 0x9C4);
    (0x9CD, 0x9CD); (0x9E2, 0x9E3); (0x9FE, 0x9FE); (0xA01, 0xA02);
    (0xA3C, 0xA3C); (0xA41, 0xA42); (0xA47, 0xA48); (0xA4B, 0xA4D);
    (0xA51, 0xA51); (0xA70, 0xA71); (0xA75, 0xA75); (0xA81, 0xA82);
    (0xABC, 0xABC); (0xAC1, 0xAC5); (0xAC7, 0xAC8); (0xACD, 0xACD);
    (0xAE2, 0xAE3); (0xAFA, 0xAFF); (0xB01, 0xB01); (0xB3C, 0xB3C);
    (0xB3F, 0xB3F); (0xB41, 0xB44); (0xB4D, 0xB4D); (0xB55, 0xB56);
    (0xB62, 0xB63); (0xB82, 0xB82); (0xBC0, 0xBC0); (0xBCD, 0xBCD);
    (0xC00, 0xC00); (0xC04, 0xC04); (0xC3C, 0xC3C); (0xC3E, 0xC40);
    (0xC46, 0xC48); (0xC4A, 0xC4D); (0xC55, 0xC56); (0xC62, 0xC63);
    (0xC81, 0xC81); (0xCBC, 0xCBC); (0xCBF, 0xCBF); (0xCC6, 0xCC6);
    (0xCCC, 0xCCD); (0xCE2, 0xCE3); (0xD00, 0xD01); (0xD3B, 0xD3C);
    (0xD41, 0xD44); (0xD4D, 0xD4D); (0xD62, 0xD63); (0xD81, 0xD81);
    (0xDCA, 0xDCA); (0xDD2, 0xDD4); (0xDD6, 0xDD6); (0xE31, 0xE31);
    (0xE34, 0xE3A); (0xE46, 0xE4E); (0xEB1, 0xEB1); (0xEB4, 0xEBC);
    (0xEC6, 0xEC6); (0xEC8, 0xECD); (0xF18, 0xF19); (0xF35, 0xF35);
    (0xF37, 0xF37); (0xF39, 0xF39); (0xF71, 0xF7E); (0xF80, 0xF84);
    (0xF86, 0xF87); (0xF8D, 0xF97); (0xF99, 0xFBC); (0xFC6, 0xFC6);
    (0x102D, 0x1030); (0x1032, 0x1037); (0x1039, 0x103A); (0x103D, 0x103E);
    (0x1058, 0x1059); (0x105E, 0x1060); (0x1071, 0x1074); (0x1082, 0x1082);
    (0x1085, 0x1086); (0x108D, 0x108D); (0x109D, 0x109D); (0x10FC, 0x10FC);
    (0x135D, 0x135F); (0x1712, 0x1714); (0x1732, 0x1733); (0x1752, 0x1753);
    (0x1772, 0x1773); (0x17B4, 0x17B5); (0x17B7, 0x17BD); (0x17C6, 0x17C6);
    (0x17C9, 0x17D3); (0x17D7, 0x17D7); (0x17DD, 0x17DD); (0x180B, 0x180F);
    (0x1843, 0x1843); (0x1885, 0x1886); (0x18A9, 0x18A9); (0x1920, 0x1922);
    (0x1927, 0x1928); (0x1932, 0x1932); (0x1939, 0x193B); (0x1A17, 0x1A18);
    (0x1A1B, 0x1A1B); (0x1A56, 0x1A56); (0x1A58, 0x1A5E); (0x1A60, 0x1A60);
    (0x1A62, 0x1A62); (0x1A65, 0x1A6C); (0x1A73, 0x1A7C); (0x1A7F, 0x1A7F);
    (0x1AA7, 0x1AA7); (0x1AB0, 0x1ACE); (0x1B00, 0x1B03); (0x1B34, 0x1B34);
    (0x1B36, 0x1B3A); (0x1B3C, 0x1B3C); (0x1B42, 0x1B42); (0x1B6B, 0x1B73);
    (0x1B80, 0x1B81); (0x1BA2, 0x1BA5); (0x1BA8, 0x1BA9); (0x1BAB, 0x1BAD);
    (0x1BE6, 0x1BE6); (0x1BE8, 0x1BE9); (0x1BED, 0x1BED); (0x1BEF, 0x1BF1);
    (0x1C2C, 0x1C33); (0x1C36, 0x1C37); (0x1C78, 0x1C7D); (0x1CD0, 0x1CD2);
    (0x1CD4, 0x1CE0); (0x1CE2, 0x1CE8); (0x1CED, 0x1CED); (0x1CF4, 0x1CF4);
    (0x1CF8, 0x1CF9); (0x1D2C, 0x1D6A); (0x1D78, 0x1D78); (0x1D9B, 0x1DFF);
    (0x1FBD, 0x1FBD); (0x1FBF, 0x1FC1); (0x1FCD, 0x1FCF); (0x1FDD, 0x1FDF);
    (0x1FED, 0x1FEF); (0x1FFD, 0x1FFE); (0x200B, 0x200F); (0x2018, 0x2019);
    (0x2024, 0x2024); (0x2027, 0x2027); (0x202A, 0x202E); (0x2060, 0x2064);
    (0x2066, 0x206F); (0x2071, 0x2071); (0x207F, 0x207F); (0x2090, 0x209C);
    (0x20D0, 0x20F0); (0x2C7C, 0x2C7D); (0x2CEF, 0x2CF1); (0x2D6F, 0x2D6F);
    (0x2D7F, 0x2D7F); (0x2DE0, 0x2DFF); (0x2E2F, 0x2E2F); (0x3005, 0x3005);
    (0x302A, 0x302D); (0x3031, 0x3035); (0x303B, 0x303B); (0x3099, 0x309E);
    (0x30FC, 0x30FE); (0xA015, 0xA015); (0xA4F8, 0xA4FD); (0xA60C, 0xA60C);
    (0xA66F, 0xA672); (0xA674, 0xA67D); (0xA67F, 0xA67F); (0xA69C, 0xA69F);
    (0xA6F0, 0xA6F1); (0xA700, 0xA721); (0xA770, 0xA770); (0xA788, 0xA78A);
    (0xA7F2, 0xA7F4); (0xA7F8, 0xA7F9); (0xA802, 0xA802); (0xA806, 0xA806);
    (0xA80B, 0xA80B); (0xA825, 0xA826); (0xA82C, 0xA82C); (0xA8C4, 0xA8C5);
    (0xA8E0, 0xA8F1); (0xA8FF, 0xA8FF); (0xA926, 0xA92D); (0xA947, 0xA951);
    (0xA980, 0xA982); (0xA9B3, 0xA9B3); (0xA9B6, 0xA9B9); (0xA9BC, 0xA9BD);
    (0xA9CF, 0xA9CF); (0xA9E5, 0xA9E6); (0xAA29, 0xAA2E); (0xAA31, 0xAA32);
    (0xAA35, 0xAA36); (0xAA43, 0xAA43); (0xAA4C, 0xAA4C); (0xAA70, 0xAA70);
    (0xAA7C, 0xAA7C); (0xAAB0, 0xAAB0); (0xAAB2, 0xAAB4); (0xAAB7, 0xAAB8);
    (0xAABE, 0xAABF); (0xAAC1, 0xAAC1); (0xAADD, 0xAADD); (0xAAEC, 0xAAED);
    (0xAAF3, 0xAAF4); (0xAAF6, 0xAAF6); (0xAB5B, 0xAB5F); (0xAB69, 0xAB6B);
    (0xABE5, 0xABE5); (0xABE8, 0xABE8); (0xABED, 0xABED); (0xFB1E, 0xFB1E);
    (0xFBB2, 0xFBC2); (0xFE00, 0xFE0F); (0xFE13, 0xFE13); (0xFE20, 0xFE2F);
    (0xFE52, 0xFE52); (0xFE55, 0xFE55); (0xFEFF, 0xFEFF); (0xFF07, 0xFF07);
    (0xFF0E, 0xFF0E); (0xFF1A, 0xFF1A); (0xFF3E, 0xFF3E); (0xFF40, 0xFF40);
    (0xFF70, 0xFF70); (0xFF9E, 0xFF9F); (0xFFE3, 0xFFE3); (0xFFF9, 0xFFFB);
    (0x101FD, 0x101FD); (0x102E0, 0x102E0); (0x10376, 0x1037A); (0x10780, 0x10785);
    (0x10787, 0x107B0); (0x107B2, 0x107BA); (0x10A01, 0x10A03); (0x10A05, 0x10A06);
    (0x10A0C, 0x10A0F); (0x10A38, 0x10A3A); (0x10A3F, 0x10A3F); (0x10AE5, 0x10AE6);
    (0x10D24, 0x10D27); (0x10EAB, 0x10EAC); (0x10F46, 0x10F50); (0x10F82, 0x10F85);
    (0x11001, 0x11001); (0x11038, 0x11046); (0x11070, 0x11070); (0x11073, 0x11074);
    (0x1107F, 0x11081); (0x110B3, 0x110B6); (0x110B9, 0x110BA); (0x110BD, 0x110BD);
    (0x110C2, 0x110C2); (0x110CD, 0x110CD); (0x11100, 0x11102); (0x11127, 0x1112B);
    (0x1112D, 0x11134); (0x11173, 0x11173); (0x11180, 0x11181); (0x111B6, 0x111BE);
    (0x111C9, 0x111CC); (0x111CF, 0x111CF); (0x1122F, 0x11231); (0x11234, 0x11234);
    (0x11236, 0x11237); (0x1123E, 0x1123E); (0x112DF, 0x112DF); (0x112E3, 0x112EA);
    (0x11300, 0x11301); (0x1133B, 0x1133C); (0x11340, 0x11340); (0x11366, 0x1136C);
    (0x11370, 0x11374); (0x11438, 0x1143F); (0x11442, 0x11444); (0x11446, 0x11446);
    (0x1145E, 0x1145E); (0x114B3, 0x114B8); (0x114BA, 0x114BA); (0x114BF, 0x114C0);
    (0x114C2, 0x114C3); (0x115B2, 0x115B5); (0x115BC, 0x115BD); (0x115BF, 0x115C0);
    (0x115DC, 0x115DD); (0x11633, 0x1163A); (0x1163D, 0x1163D); (0x1163F, 0x11640);
    (0x116AB, 0x116AB); (0x116AD, 0x116AD); (0x116B0, 0x116B5); (0x116B7, 0x116B7);
    (0x1171D, 0x1171F); (0x11722, 0x11725); (0x11727, 0x1172B); (0x1182F, 0x11837);
    (0x11839, 0x1183A); (0x1193B, 0x1193C); (0x1193E, 0x1193E); (0x11943, 0x11943);
    (0x119D4, 0x119D7); (0x119DA, 0x119DB); (0x119E0, 0x119E0); (0x11A01, 0x11A0A);
    (0x11A33, 0x11A38); (0x11A3B, 0x11A3E); (0x11A47, 0x11A47); (0x11A51, 0x11A56);
    (0x11A59, 0x11A5B); (0x11A8A, 0x11A96); (0x11A98, 0x11A99); (0x11C30, 0x11C36);
    (0x11C38, 0x11C3D); (0x11C3F, 0x11C3F); (0x11C92, 0x11CA7); (0x11CAA, 0x11CB0);
    (0x11CB2, 0x11CB3); (0x11CB5, 0x11CB6); (0x11D31, 0x11D36); (0x11D3A, 0x11D3A);
    (0x11D3C, 0x11D3D); (0x11D3F, 0x11D45); (0x11D47, 0x11D47); (0x11D90, 0x11D91);
    (0x11D95, 0x11D95); (0x11D97, 0x11D97); (0x11EF3, 0x11EF4); (0x13430, 0x13438);
    (0x16AF0, 0x16AF4); (0x16B30, 0x16B36); (0x16B40, 0x16B43); (0x16F4F, 0x16F4F);
    (0x16F8F, 0x16F9F); (0x16FE0, 0x16FE1); (0x16FE3, 0x16FE4); (0x1AFF0, 0x1AFF3);
    (0x1AFF5, 0x1AFFB); (0x1AFFD, 0x1AFFE); (0x1BC9D, 0x1BC9E); (0x1BCA0, 0x1BCA3);
    (0x1CF00, 0x1CF2D); (0x1CF30, 0x1CF46); (0x1D167, 0x1D169); (0x1D173, 0x1D182);
    (0x1D185, 0x1D18B); (0x1D1AA, 0x1D1AD); (0x1D242, 0x1D244); (0x1DA00, 0x1DA36);
    (0x1DA3B, 0x1DA6C); (0x1DA75, 0x1DA75); (0x1DA84, 0x1DA84); (0x1DA9B, 0x1DA9F);
    (0x1DAA1, 0x1DAAF); (0x1E000, 0x1E006); (0x1E008, 0x1E018); (0x1E01B, 0x1E021);
    (0x1E023, 0x1E024); (0x1E026, 0x1E02A); (0x1E130, 0x1E13D); (0x1E2AE, 0x1E2AE);
    (0x1E2EC, 0x1E2EF); (0x1E8D0, 0x1E8D6); (0x1E944, 0x1E94B); (0x1F3FB, 0x1F3FF);
    (0xE0001, 0xE0001); (0xE0020, 0xE007F); (0xE0100, 0xE01EF) ].

Definition cased_table : list (N * N) :=
  [ (0x41, 0x5A); (0x61, 0x7A); (0xAA, 0xAA); (0xB5, 0xB5);
    (0xBA, 0xBA); (0xC0, 0xD6); (0xD8, 0xF6); (0xF8, 0x1BA);
    (0x1BC, 0x1BF); (0x1C4, 0x293); (0x295, 0x2AF); (0x370, 0x373);
    (0x376, 0x377); (0x37B, 0x37D); (0x37F, 0x37F); (0x386, 0x386);
    (0x388, 0x38A); (0x38C, 0x38C); (0x38E, 0x3A1); (0x3A3, 0x3F5);
    (0x3F7, 0x481); (0x48A, 0x52F); (0x531, 0x556); (0x560, 0x588);
    (0x10A0, 0x10C5); (0x10C7, 0x10C7); (0x10CD, 0x10CD); (0x10D0, 0x10FA);
    (0x10FD, 0x10FF); (0x13A0, 0x13F5); (0x13F8, 0x13FD); (0x1C80, 0x1C88);
    (0x1C90, 0x1CBA); (0x1CBD, 0x1CBF); (0x1D00, 0x1D2B); (0x1D6B, 0x1D77);
    (0x1D79, 0x1D9A); (0x1E00, 0x1F15); (0x1F18, 0x1F1D); (0x1F20, 0x1F45);
    (0x1F48, 0x1F4D); (0x1F50, 0x1F57); (0x1F59, 0x1F59); (0x1F5B, 0x1F5B);
    (0x1F5D, 0x1F5D); (0x1F5F, 0x1F7D); (0x1F80, 0x1FB4); (0x1FB6, 0x1FBC);
    (0x1FBE, 0x1FBE); (0x1FC2, 0x1FC4); (0x1FC6, 0x1FCC); (0x1FD0, 0x1FD3);
    (0x1FD6, 0x1FDB); (0x1FE0, 0x1FEC); (0x1FF2, 0x1FF4); (0x1FF6, 0x1FFC);
    (0x2102, 0x2102); (0x2107, 0x2107); (0x210A, 0x2113); (0x2115, 0x2115);
    (0x2119, 0x211D); (0x2124, 0x2124); (0x2126, 0x2126); (0x2128, 0x2128);
    (0x212A, 0x212D); (0x212F, 0x2134); (0x2139, 0x2139); (0x213C, 0x213F);
    (0x2145, 0x2149); (0x214E, 0x214E); (0x2160, 0x217F); (0x2183, 0x2184);
    (0x24B6, 0x24E9); (0x2C00, 0x2C7B); (0x2C7E, 0x2CE4); (0x2CEB, 0x2CEE);
    (0x2CF2, 0x2CF3); (0x2D00, 0x2D25); (0x2D27, 0x2D27); (0x2D2D, 0x2D2D);
    (0xA640, 0xA66D); (0xA680, 0xA69B); (0xA722, 0xA76F); (0xA771, 0xA787);
    (0xA78B, 0xA78E); (0xA790, 0xA7CA); (0xA7D0, 0xA7D1); (0xA7D3, 0xA7D3);
    (0xA7D5, 0xA7D9); (0xA7F5, 0xA7F6); (0xA7FA, 0xA7FA); (0xAB30, 0xAB5A);
    (0xAB60, 0xAB68); (0xAB70, 0xABBF); (0xFB00, 0xFB06); (0xFB13, 0xFB17);
    (0xFF21, 0xFF3A); (0xFF41, 0xFF5A); (0x10400, 0x1044F); (0x104B0, 0x104D3);
    (0x104D8, 0x104FB); (0x10570, 0x1057A); (0x1057C, 0x1058A); (0x1058C, 0x10592);
    (0x10594, 0x10595); (0x10597, 0x105A1); (0x105A3, 0x105B1); (0x105B3, 0x105B9);
    (0x105BB, 0x105BC); (0x10C80, 0x10CB2); (0x10CC0, 0x10CF2); (0x118A0, 0x118DF);
    (0x16E40, 0x16E7F); (0x1D400, 0x1D454); (0x1D456, 0x1D49C); (0x1D49E, 0x1D49F);
    (0x1D4A2, 0x1D4A2); (0x1D4A5, 0x1D4A6); (0x1D4A9, 0x1D4AC); (0x1D4AE, 0x1D4B9);
    (0x1D4BB, 0x1D4BB); (0x1D4BD, 0x1D4C3); (0x1D4C5, 0x1D505); (0x1D507, 0x1D50A);
    (0x1D50D, 0x1D514); (0x1D516, 0x1D51C); (0x1D51E, 0x1D539); (0x1D53B, 0x1D53E);
    (0x1D540, 0x1D544); (0x1D546, 0x1D546); (0x1D54A, 0x1D550); (0x1D552, 0x1D6A5);
    (0x1D6A8, 0x1D6C0); (0x1D6C2, 0x1D6DA); (0x1D6DC, 0x1D6FA); (0x1D6FC, 0x1D714);
    (0x1D716, 0x1D734); (0x1D736, 0x1D74E); (0x1D750, 0x1D76E); (0x1D770, 0x1D788);
    (0x1D78A, 0x1D7A8); (0x1D7AA, 0x1D7C2); (0x1D7C4, 0x1D7CB); (0x1DF00, 0x1DF09);
    (0x1DF0B, 0x1DF1E); (0x1E900, 0x1E943); (0x1F130, 0x1F149); (0x1F150, 0x1F169);
    (0x1F170, 0x1F189) ].

Definition lower_table : list (N * N * N * N) :=
  lower_ascii_entry :: lower_table_above_ascii.

Fixpoint lookup_image (c : N) (table : list (N * N * N * N)) : option N :=
  match table with
  | [] => None
  | (first, last, step, image) :: table' =>
      if c <? first then None
      else if (c <=? last) && ((c - first) mod step =? 0)
           then Some (image + (c - first))
           else lookup_image c table'
  end.

Fixpoint in_ranges (c : N) (table : list (N * N)) : bool :=
  match table with
  | [] => false
  | (first, last) :: table' =>
      if c <? first then false
      else if c <=? last then true else in_ranges c table'
  end.

(** The lower case of one character out of context; only U+0130 has one of
    two characters. *)
Definition lower_char (c : N) : list N :=
  if c =? 0x130 then [0x69; 0x307]
  else match lookup_image c lower_table with
       | Some image => [image]
       | None => [c]
       end.

Definition is_case_ignorable (c : N) : bool := in_ranges c case_ignorable_table.

(** Asked only of characters that are not case-ignorable. *)
Definition is_cased (c : N) : bool := in_ranges c cased_table.

Fixpoint first_not_ignorable (l : list N) : option N :=
  match l with
  | [] => None
  | c :: l' => if is_case_ignorable c then first_not_ignorable l' else Some c
  end.

(** A capital sigma is final when a cased character stands before it and
    none after it, case-ignorable characters apart; [before] is what
    precedes it, nearest first. *)
Definition final_sigma (before after : list N) : bool :=
  match first_not_ignorable before with
  | Some c =>
      is_cased c
      && match first_not_ignorable after with
         | Some d => negb (is_cased d)
         | None => true
         end
  | None => false
  end.

Fixpoint lower_from (before l : list N) : list N :=
  match l with
  | [] => []
  | c :: l' =>
      (if c =? 0x3A3
       then [if final_sigma before l' then 0x3C2 else 0x3C3]
       else lower_char c)
        ++ lower_from (c :: before) l'
  end.

Local Close Scope N_scope.

(** [s.lower()] *)
Definition lower (s : string) : string := encode (lower_from [] (decode s)).

(* ===================================================================== *)
(** ** The regular expression [https?://\S+], [re.sub] and [str.strip] *)
(* ===================================================================== *)

(** The matchers work on the characters of a string.  Each is anchored at
    the start of its argument and returns what follows the match. *)
Fixpoint expect (p l : list N) : option (list N) :=
  match p with
  | [] => Some l
  | a :: p' =>
      match l with
      | [] => None
      | b :: l' => if (a =? b)%N then expect p' l' else None
      end
  end.

(** [\S+] is greedy and nothing follows it in the pattern, so it takes the
    maximal run, which must not be empty. *)
Fixpoint skip_nonspace (l : list N) : list N :=
  match l with
  | [] => []
  | c :: l' => if isspace c then l else skip_nonspace l'
  end.

Definition re_nonspace_plus (l : list N) : option (list N) :=
  match l with
  | [] => None
  | c :: l' => if isspace c then None else Some (skip_nonspace l')
  end.

(** [://\S+] *)
Definition re_url_tail (l : list N) : option (list N) :=
  match expect (decode "://") l with
  | Some r => re_nonspace_plus r
  | None => None
  end.

(** [https?://\S+]: after [http] the optional [s] is tried first, and the
    matcher backtracks to the alternative without it. *)
Definition re_url_match (l : list N) : option (list N) :=
  match expect (decode "http") l with
  | None => None
  | Some r =>
      match
        match expect (decode "s") r with
        | Some r' => re_url_tail r'
        | None => None
        end
      with
      | Some rest => Some rest
      | None => re_url_tail r
      end
  end.

(** [re.sub(r'https?://\S+', '', s)] on the characters of [s]: scan from
    the left; at a match drop it and go on after it, otherwise keep the
    character and move one on.  The fuel bounds the number of scan steps. *)
Fixpoint re_sub_url (fuel : nat) (l : list N) : list N :=
  match fuel with
  | O => l
  | S fuel' =>
      match re_url_match l with
      | Some rest => re_sub_url fuel' rest
      | None =>
          match l with
          | [] => []
          | c :: l' => c :: re_sub_url fuel' l'
          end
      end
  end.

Definition strip_links_chars (l : list N) : list N := re_sub_url (length l) l.

Definition strip_links (text : string) : string :=
  encode (strip_links_chars (decode text)).

(** A match of the pattern starts somewhere in [l]. *)
Fixpoint has_url (l : list N) : bool :=
  match re_url_match l with
  | Some _ => true
  | None =>
      match l with
      | [] => false
      | _ :: l' => has_url l'
      end
  end.

(** [s.lstrip()], [s.rstrip()] and [s.strip()] on the characters of [s]. *)
Fixpoint lstrip_chars (l : list N) : list N :=
  match l with
  | [] => []
  | c :: l' => if isspace c then lstrip_chars l' else l
  end.

Fixpoint rstrip_chars (l : list N) : list N :=
  match l with
  | [] => []
  | c :: l' =>
      match rstrip_chars l' with
      | [] => if isspace c then [] else [c]
      | r => c :: r
      end
  end.

Definition strip_chars (l : list N) : list N := rstrip_chars (lstrip_chars l).

Definition strip (s : string) : string := encode (strip_chars (decode s)).

(* ===================================================================== *)
(** ** [sorted(l, key=..., reverse=True)] *)
(* ===================================================================== *)

Section Sorted.
Context {A : Type} (key : A -> Z).

(** [x] stood before every element of [l] in the input, so it goes in
    front of the first element whose key is not larger than its own. *)
Fixpoint insert_desc (x : A) (l : list A) : list A :=
  match l with
  | [] => [x]
  | y :: l' => if key y <=? key x then x :: l else y :: insert_desc x l'
  end.

Fixpoint sorted_reverse (l : list A) : list A :=
  match l with
  | [] => []
  | x :: l' => insert_desc x (sorted_reverse l')
  end.

(** Descending in the key. *)
Definition descending (l : list A) : Prop :=
  StronglySorted (fun a b => key b <= key a) l.

(** Elements of equal key keep their relative order. *)
Definition same_order_within_keys (l l' : list A) : Prop :=
  forall k, filter (fun a => key a = k) l' = filter (fun a => key a = k) l.

End Sorted.

(* ===================================================================== *)
(** ** Data model *)
(* ===================================================================== *)

(** [keywords.json], read once at start-up. *)
Record KeywordConfig := {
  PRIMARY_KEYWORDS : list string;
  PRODUCT : list string;
  SERVICE : list string
}.

(** A [tweepy.Tweet].  [note_tweet] is an attribute only when the API sent
    the field. *)
Module Tweet.
Record t := {
  id : Z;
  author_id : Z;
  text : string;
  note_tweet : option (gmap string string);
  public_metrics : gmap string Z
}.
End Tweet.

(** A [tweepy.User]. *)
Module User.
Record t := {
  id : Z;
  username : string;
  public_metrics : gmap string Z
}.
End User.

(** The [tweepy.Response] of a search: [data] is [None] or a list, and
    [includes] has the key ["users"] only when the API sent users. *)
Record SearchResponse := {
  data : option (list Tweet.t);
  includes_users : option (list User.t)
}.

(** What [client.search_recent_tweets] does: it raises, or it returns. *)
Inductive SearchOutcome :=
| RaisesConnectionError (e : string)
| RaisesException (e : string)
| ReturnsResponse (tweets : SearchResponse).

(** Block Kit values, in the three shapes the script builds. *)
Inductive Block :=
| DividerBlock
| SectionBlock (mrkdwn : string)
| ContextBlock (elements : list string).

(** The JSON body of a webhook call: [payload_thread_ts] is [None] when the
    key ["thread_ts"] is not in the payload. *)
Record Payload := {
  blocks : list Block;
  payload_thread_ts : option string
}.

(** A [requests.Response]. *)
Module Response.
Record t := {
  status_code : Z;
  text : string
}.
End Response.

Inductive Level := INFO | ERROR.

Definition LogRecord : Type := Level * string.

(** The collaborators of one run.  The two readings of the clock are given
    already formatted; the webhook answers the [n]-th call (counted from 0)
    with a response that may depend on the payload. *)
Record Env := {
  clock_one_day_ago : string;
  clock_timestamp : string;
  search_recent_tweets : string -> string -> SearchOutcome;
  webhook : nat -> Payload -> Response.t
}.

(** What a run has done so far: the search calls (query, start time), the
    payloads posted to the webhook and the log, each oldest first. *)
Record World := {
  searches : list (string * string);
  posts : list Payload;
  log : list LogRecord
}.

Definition empty_world : World := {| searches := []; posts := []; log := [] |}.

(* ===================================================================== *)
(** ** The monad of the script: state and uncaught exceptions *)
(* ===================================================================== *)

Inductive Exn := KeyError (key : string).

Inductive Result (A : Type) :=
| Returns (a : A) (w : World)
| Raises (e : Exn) (w : World).

Arguments Returns {A} a w.
Arguments Raises {A} e w.

Definition M (A : Type) : Type := World -> Result A.

Definition ret {A} (a : A) : M A := fun w => Returns a w.

Definition bind {A B} (m : M A) (k : A -> M B) : M B :=
  fun w =>
    match m w with
    | Returns a w' => k a w'
    | Raises e w' => Raises e w'
    end.

Definition raise {A} (e : Exn) : M A := fun w => Raises e w.

Declare Scope monad_scope.
Delimit Scope monad_scope with M.
Notation "'do' x <- m ; k" := (bind m (fun x => k))
  (at level 10, x name, m at level 100, k at level 200) : monad_scope.
Notation "m ;; k" := (bind m (fun _ => k))
  (at level 100, k at level 200, right associativity) : monad_scope.
Local Open Scope monad_scope.

(** The world a computation ends in, whichever way it ends. *)
Definition final {A} (r : Result A) : World :=
  match r with
  | Returns _ w => w
  | Raises _ w => w
  end.

(** [for x in l: body(x)] *)
Fixpoint for_each {A} (l : list A) (body : A -> M unit) : M unit :=
  match l with
  | [] => ret tt
  | x :: l' => body x;; for_each l' body
  end.

Definition add_search (q : string * string) (w : World) : World :=
  {| searches := searches w ++ [q]; posts := posts w; log := log w |}.

Definition add_post (p : Payload) (w : World) : World :=
  {| searches := searches w; posts := posts w ++ [p]; log := log w |}.

Definition add_log (r : LogRecord) (w : World) : World :=
  {| searches := searches w; posts := posts w; log := log w ++ [r] |}.

(** [logging.info(msg)] and [logging.error(msg)]; the level of the root
    logger is INFO, so both are written. *)
Definition logging (lvl : Level) (msg : string) : M unit :=
  fun w => Returns tt (add_log (lvl, msg) w).

(** [d[k]], given the result of looking [k] up. *)
Definition getitem {A} (lookup : option A) (k : string) : M A :=
  match lookup with
  | Some a => ret a
  | None => raise (KeyError k)
  end.

(** Truth value of an optional string ([None] and [''] are false) and of
    an optional list ([None] and [[]] are false). *)
Definition truthy_str (o : option string) : bool :=
  match o with
  | Some (String _ _) => true
  | _ => false
  end.

Definition truthy_list {A} (o : option (list A)) : bool :=
  match o with
  | Some (_ :: _) => true
  | _ => false
  end.

(* ===================================================================== *)
(** ** The script *)
(* ===================================================================== *)

Section Script.
Context (keyword_config : KeywordConfig) (env : Env).

(** [requests.post(SLACK_WEBHOOK_URL, json=payload)] *)
Definition requests_post (payload : Payload) : M Response.t :=
  fun w => Returns (webhook env (length (posts w)) payload) (add_post payload w).

(** [client.search_recent_tweets(query=..., start_time=..., ...)]; what it
    raises is caught by the caller, so it is returned as a value. *)
Definition client_search_recent_tweets (query start_time : string)
  : M SearchOutcome :=
  fun w =>
    Returns (search_recent_tweets env query start_time)
            (add_search (query, start_time) w).

(** [payload = {"blocks": blocks}], with the key ["thread_ts"] added when
    [thread_ts] is true. *)
Definition make_payload (blocks : list Block) (thread_ts : option string)
  : Payload :=
  {| blocks := blocks;
     payload_thread_ts := if truthy_str thread_ts then thread_ts else None |}.

(** [f"Slack webhook error: {response.status_code} {response.text}"] *)
Definition webhook_error_message (response : Response.t) : string :=
  "Slack webhook error: " +:+ pretty (Response.status_code response)
    +:+ " " +:+ Response.text response.

Definition send_to_slack_blockkit (blocks : list Block)
    (thread_ts : option string) : M (option string) :=
  let payload := make_payload blocks thread_ts in
  do response <- requests_post payload;
  (if negb (Response.status_code response =? 200)
   then logging ERROR (webhook_error_message response)
   else ret tt);;
  ret None.

(** [getattr(tweet, "note_tweet", {}).get("full_text", tweet.text)] *)
Definition tweet_text (tweet : Tweet.t) : string :=
  default (Tweet.text tweet)
          (default ∅ (Tweet.note_tweet tweet) !! "full_text").

(** [f"https://twitter.com/{user.username}/status/{tweet.id}"] *)
Definition tweet_url (tweet : Tweet.t) (user : User.t) : string :=
  "https://twitter.com/" +:+ User.username user +:+ "/status/"
    +:+ pretty (Tweet.id tweet).

(** [strip_links(tweet_text).strip()] *)
Definition clean_text (text : string) : string := strip (strip_links text).

Definition counters_line (tweet : Tweet.t) : string :=
  let m := Tweet.public_metrics tweet in
  "👍 " +:+ pretty (default 0 (m !! "like_count"))
    +:+ "   🔁 " +:+ pretty (default 0 (m !! "retweet_count"))
    +:+ "   💬 " +:+ pretty (default 0 (m !! "reply_count"))
    +:+ "   👀 " +:+ pretty (default 0 (m !! "impression_count")).

(** The list that [format_tweet_blockkit] returns, given the value of
    [user.public_metrics['followers_count']]. *)
Definition tweet_blocks (tweet : Tweet.t) (user : User.t)
    (followers_count : Z) : list Block :=
  [ DividerBlock;
    SectionBlock ("*New tweet by @" +:+ User.username user
                    +:+ "* _(Followers: " +:+ pretty followers_count
                    +:+ ")_" +:+ String newline (String newline "")
                    +:+ clean_text (tweet_text tweet));
    ContextBlock [counters_line tweet];
    SectionBlock ("<" +:+ tweet_url tweet user +:+ "|🔗 View on Twitter>") ].

Definition format_tweet_blockkit (tweet : Tweet.t) (user : User.t)
  : M (list Block) :=
  do followers_count <- getitem (User.public_metrics user !! "followers_count")
                                "followers_count";
  ret (tweet_blocks tweet user followers_count).

(** [key=lambda t: t.public_metrics.get("impression_count", 0)] *)
Definition impression_count (t : Tweet.t) : Z :=
  default 0 (Tweet.public_metrics t !! "impression_count").

(** [{user.id: user for user in users}]: a later user replaces an earlier
    one of the same id. *)
Definition make_user_dict (users : list User.t) : gmap Z User.t :=
  foldl (fun d user => <[User.id user := user]> d) ∅ users.

Definition header_block : list Block :=
  [ SectionBlock ("*🕓 Keyword Tracker - Tweets from: "
                    +:+ clock_timestamp env +:+ "*");
    DividerBlock ].

(** [f'"{kw}"'] *)
Definition quoted (kw : string) : string :=
  String dquote (kw +:+ String dquote "").

Definition keyword_clauses : list string :=
  map quoted (PRIMARY_KEYWORDS keyword_config ++ PRODUCT keyword_config).

Definition query : string :=
  "(" +:+ join " OR " keyword_clauses +:+ ") -is:retweet -is:reply lang:en".

(** [any(token.lower() in tweet_text.lower() for token in SERVICE)] *)
Definition has_spam_token (text : string) : bool :=
  existsb (fun token => str_in (lower token) (lower text))
          (SERVICE keyword_config).

(** [any(kw in tweet_text for kw in PRIMARY_KEYWORDS + PRODUCT)] *)
Definition has_keyword (text : string) : bool :=
  existsb (fun kw => str_in kw text)
          (PRIMARY_KEYWORDS keyword_config ++ PRODUCT keyword_config).

(** [user.public_metrics.get("followers_count", 0)] *)
Definition followers_of (user : User.t) : Z :=
  default 0 (User.public_metrics user !! "followers_count").

(** The three log lines of the filters. *)
Definition spam_message (url : string) : string :=
  "Tweet skipped due to spam token: " +:+ url.

Definition ransomware_message (url : string) : string :=
  "Tweet skipped due to containing 'ransomware': " +:+ url.

Definition low_followers_message (followers : Z) (url : string) : string :=
  "Tweet skipped due to low follower count (" +:+ pretty followers
    +:+ "): " +:+ url.

(** The body of [for tweet in sorted_tweets]; each [continue] ends it. *)
Definition loop_body (user_dict : gmap Z User.t) (thread_ts : option string)
    (tweet : Tweet.t) : M unit :=
  match user_dict !! Tweet.author_id tweet with
  | Some user =>
      let text := tweet_text tweet in
      let url := tweet_url tweet user in
      if has_spam_token text then
        logging INFO (spam_message url)
      else if str_in "ransomware" (lower text) then
        logging INFO (ransomware_message url)
      else
        let followers := followers_of user in
        if followers <? 20 then
          logging INFO (low_followers_message followers url)
        else if has_keyword text then
          do blocks <- format_tweet_blockkit tweet user;
          logging INFO ("Tweet matched: " +:+ Tweet.text tweet);;
          send_to_slack_blockkit blocks thread_ts;;
          ret tt
        else ret tt
  | None => ret tt
  end.

(** [sorted(tweets.data, key=..., reverse=True)[:100]] *)
Definition sorted_tweets (tweets_data : list Tweet.t) : list Tweet.t :=
  take 100 (sorted_reverse impression_count tweets_data).

Definition search_and_notify : M unit :=
  let one_day_ago := clock_one_day_ago env in
  do outcome <- client_search_recent_tweets query one_day_ago;
  match outcome with
  | RaisesConnectionError e =>
      logging ERROR ("Twitter API connection error: " +:+ e)
  | RaisesException e =>
      logging ERROR ("Unexpected error during Twitter API call: " +:+ e)
  | ReturnsResponse tweets =>
      if truthy_list (data tweets) then
        do users <- getitem (includes_users tweets) "users";
        let user_dict := make_user_dict users in
        do thread_ts <- send_to_slack_blockkit header_block None;
        for_each (sorted_tweets (default [] (data tweets)))
                 (loop_body user_dict thread_ts)
      else
        logging INFO "No tweets found in the past 24 hours."
  end.

End Script.

(** One invocation of the process: [search_and_notify()] from nothing. *)
Definition run (keyword_config : KeywordConfig) (env : Env) : Result unit :=
  search_and_notify keyword_config env empty_world.

(* ===================================================================== *)
(** ** Vocabulary of the properties *)
(* ===================================================================== *)

(** [needle] occurs in [hay]. *)
Definition substring_of (needle hay : string) : Prop :=
  exists a b, hay = a +:+ needle +:+ b.

(** [w] is the word ["ransomware"] in some casing. *)
Definition casing_of_ransomware (w : string) : Prop :=
  lower w = "ransomware".

(** A computation that ends by returning, not by an uncaught exception. *)
Definition returns_normally {A} (r : Result A) : Prop :=
  match r with
  | Returns _ _ => True
  | Raises _ _ => False
  end.

(** The filters of the loop as one function: the author under whom the
    tweet is posted, if it is posted. *)
Definition accepted (keyword_config : KeywordConfig)
    (user_dict : gmap Z User.t) (tweet : Tweet.t) : option User.t :=
  match user_dict !! Tweet.author_id tweet with
  | Some user =>
      if has_spam_token keyword_config (tweet_text tweet) then None
      else if str_in "ransomware" (lower (tweet_text tweet)) then None
      else if followers_of user <? 20 then None
      else if has_keyword keyword_config (tweet_text tweet) then Some user
      else None
  | None => None
  end.

(** The payload of the item message of an accepted tweet. *)
Definition item_payload (thread_ts : option string) (tweet : Tweet.t)
    (user : User.t) : Payload :=
  make_payload (tweet_blocks tweet user (followers_of user)) thread_ts.

Definition item_payloads (keyword_config : KeywordConfig)
    (user_dict : gmap Z User.t) (thread_ts : option string)
    (tweets : list Tweet.t) : list Payload :=
  omap (fun tweet => item_payload thread_ts tweet
                       <$> accepted keyword_config user_dict tweet) tweets.

(** The ERROR record that the answer to the [n]-th webhook call causes:
    one when the status is not 200, none otherwise. *)
Definition webhook_error (env : Env) (n : nat) (p : Payload) : list LogRecord :=
  let response := webhook env n p in
  if Response.status_code response =? 200 then []
  else [(ERROR, webhook_error_message response)].

Fixpoint webhook_errors (env : Env) (n : nat) (ps : list Payload)
  : list LogRecord :=
  match ps with
  | [] => []
  | p :: ps' => webhook_error env n p ++ webhook_errors env (S n) ps'
  end.

(** What one pass through the loop body posts and logs, when [n] payloads
    were posted before it. *)
Definition body_posts (keyword_config : KeywordConfig)
    (user_dict : gmap Z User.t) (thread_ts : option string)
    (tweet : Tweet.t) : list Payload :=
  match accepted keyword_config user_dict tweet with
  | Some user => [item_payload thread_ts tweet user]
  | None => []
  end.

Definition body_log (keyword_config : KeywordConfig) (env : Env)
    (user_dict : gmap Z User.t) (thread_ts : option string) (n : nat)
    (tweet : Tweet.t) : list LogRecord :=
  match user_dict !! Tweet.author_id tweet with
  | Some user =>
      let url := tweet_url tweet user in
      if has_spam_token keyword_config (tweet_text tweet) then
        [(INFO, spam_message url)]
      else if str_in "ransomware" (lower (tweet_text tweet)) then
        [(INFO, ransomware_message url)]
      else if followers_of user <? 20 then
        [(INFO, low_followers_message (followers_of user) url)]
      else if has_keyword keyword_config (tweet_text tweet) then
        (INFO, "Tweet matched: " +:+ Tweet.text tweet)
          :: webhook_error env n (item_payload thread_ts tweet user)
      else []
  | None => []
  end.

(** The log of the whole loop. *)
Fixpoint loop_log (keyword_config : KeywordConfig) (env : Env)
    (user_dict : gmap Z User.t) (thread_ts : option string) (n : nat)
    (tweets : list Tweet.t) : list LogRecord :=
  match tweets with
  | [] => []
  | tweet :: tweets' =>
      body_log keyword_config env user_dict thread_ts n tweet
        ++ loop_log keyword_config env user_dict thread_ts
             (n + length (body_posts keyword_config user_dict thread_ts tweet))
             tweets'
  end.

(** [w] after more payloads and more log records. *)
Definition extend (w : World) (ps : list Payload) (rs : list LogRecord)
  : World :=
  {| searches := searches w; posts := posts w ++ ps; log := log w ++ rs |}.

(** The payload of the header message. *)
Definition header_payload (env : Env) : Payload :=
  make_payload (header_block env) None.

Definition is_error (r : LogRecord) : bool :=
  match r.1 with
  | ERROR => true
  | INFO => false
  end.

(** A 2xx status. *)
Definition is_success (status : Z) : bool := (200 <=? status) && (status <? 300).

(** The same collaborators with another webhook. *)
Definition with_webhook (env : Env) (wh : nat -> Payload -> Response.t) : Env :=
  {| clock_one_day_ago := clock_one_day_ago env;
     clock_timestamp := clock_timestamp env;
     search_recent_tweets := search_recent_tweets env;
     webhook := wh |}.

(** The maximal run of non-whitespace characters at the start of [l]:
    what [\S*] matches there. *)
Fixpoint take_nonspace (l : list N) : list N :=
  match l with
  | [] => []
  | c :: l' => if isspace c then [] else c :: take_nonspace l'
  end.

(** Characters that start a match of [https?://\S+]: the scheme, [://] and
    a character that is not whitespace. *)
Definition url_start (l : list N) : Prop :=
  exists scheme c r,
    (scheme = decode "http://" \/ scheme = decode "https://") /\
    l = scheme ++ c :: r /\ isspace c = false.

(** Neither the first nor the last character of [l] is whitespace. *)
Definition trimmed (l : list N) : Prop :=
  (forall c, head l = Some c -> isspace c = false) /\
  (forall c, last l = Some c -> isspace c = false).

(** A character of Unicode that UTF-8 encodes: no surrogate, at most
    U+10FFFF. *)
Definition is_scalar (c : N) : bool :=
  ((c <? 0xD800) || ((0xDFFF <? c) && (c <=? 0x10FFFF)))%N.

(** [s] is the encoding of a Python string: every byte of it belongs to a
    well-formed sequence. *)
Definition well_formed (s : string) : Prop :=
  forallb is_scalar (decode s) = true.

(** A byte below 128, and a string of such bytes. *)
Definition is_ascii_byte (c : ascii) : bool := (N_of_ascii c <? 0x80)%N.

Fixpoint is_ascii (s : string) : bool :=
  match s with
  | EmptyString => true
  | String c s' => is_ascii_byte c && is_ascii s'
  end.

(** The bytes of a string as numbers. *)
Fixpoint codes (s : string) : list N :=
  match s with
  | EmptyString => []
  | String c s' => N_of_ascii c :: codes s'
  end.

(** The lower case of an ASCII letter, and of the ASCII letters of a
    string. *)
Definition ascii_lower_code (c : N) : N :=
  (if (0x41 <=? c) && (c <=? 0x5A) then c + 0x20 else c)%N.

Fixpoint ascii_lower (s : string) : string :=
  match s with
  | EmptyString => EmptyString
  | String c s' =>
      String (ascii_of_N (ascii_lower_code (N_of_ascii c))) (ascii_lower s')
  end.




(** An entry of the table of lower cases either lies within ASCII, or has
    its images outside ASCII, or is the Kelvin sign with its image k. *)
Definition entry_image_ok (e : N * N * N * N) : bool :=
  match e with
  | (first, last, _, image) =>
      ((last <? 0x80) || (0x80 <=? image)
       || ((first =? 0x212A) && (last =? 0x212A) && (image =? 0x6B)))%N
  end.

(** The payloads of a whole run, read off the answer of the search. *)
Definition expected_posts (keyword_config : KeywordConfig) (env : Env)
  : list Payload :=
  match search_recent_tweets env (query keyword_config)
                             (clock_one_day_ago env) with
  | ReturnsResponse r =>
      if truthy_list (data r) then
        match includes_users r with
        | Some users =>
            header_payload env
              :: item_payloads keyword_config (make_user_dict users) None
                   (sorted_tweets (default [] (data r)))
        | None => []
        end
      else []
  | _ => []
  end.

(** The search raised, or it returned no post. *)
Definition raised_or_empty (outcome : SearchOutcome) : Prop :=
  match outcome with
  | RaisesConnectionError _ | RaisesException _ => True
  | ReturnsResponse r => truthy_list (data r) = false
  end.

(** The one log record of a run whose search raised or found nothing. *)
Definition sole_record (outcome : SearchOutcome) : LogRecord :=
  match outcome with
  | RaisesConnectionError e =>
      (ERROR, "Twitter API connection error: " +:+ e)
  | RaisesException e =>
      (ERROR, "Unexpected error during Twitter API call: " +:+ e)
  | ReturnsResponse _ => (INFO, "No tweets found in the past 24 hours.")
  end.

(** A run that fails fast: it ends with an error before any search call. *)
Definition fails_fast (r : Result unit) : Prop :=
  exists e w, r = Raises e w /\ searches w = [].

(** A notifier call that writes to the log exactly when the status of the
    answer is not a 2xx. *)
Definition logs_iff_not_2xx (env : Env) (blocks : list Block)
    (thread_ts : option string) (w : World) : Prop :=
  let response :=
    webhook env (length (posts w)) (make_payload blocks thread_ts) in
  log (final (send_to_slack_blockkit env blocks thread_ts w)) <> log w
  <-> is_success (Response.status_code response) = false.

(* ===================================================================== *)
(** ** Concrete inputs *)
(* ===================================================================== *)

Definition mk_tweet (id author_id : Z) (text : string) (impressions : Z)
  : Tweet.t :=
  {| Tweet.id := id; Tweet.author_id := author_id; Tweet.text := text;
     Tweet.note_tweet := None;
     Tweet.public_metrics := {[ "impression_count" := impressions ]} |}.

Definition mk_user (id : Z) (username : string) (followers : Z) : User.t :=
  {| User.id := id; User.username := username;
     User.public_metrics := {[ "followers_count" := followers ]} |}.

(** A user whose public metrics have no [followers_count]. *)
Definition user_without_followers (id : Z) (username : string) : User.t :=
  {| User.id := id; User.username := username;
     User.public_metrics := {[ "tweet_count" := 9 ]} |}.

Definition respond (status : Z) (body : string) : Response.t :=
  {| Response.status_code := status; Response.text := body |}.

Definition ok_webhook : nat -> Payload -> Response.t :=
  fun _ _ => respond 200 "ok".

Definition mk_env (outcome : SearchOutcome)
    (wh : nat -> Payload -> Response.t) : Env :=
  {| clock_one_day_ago := "2024-05-01T12:00:00+00:00";
     clock_timestamp := "2024-05-02 12:00 UTC";
     search_recent_tweets := fun _ _ => outcome;
     webhook := wh |}.

Definition found (tweets : list Tweet.t) (users : list User.t) : SearchOutcome :=
  ReturnsResponse {| data := Some tweets; includes_users := Some users |}.

(** The end-to-end scenario: one post that matches a primary keyword, by an
    author with 50 followers, no spam token, 10 impressions, and a webhook
    that answers every call with 200. *)
Definition scenario_config : KeywordConfig :=
  {| PRIMARY_KEYWORDS := ["rust"]; PRODUCT := ["cargo"]; SERVICE := ["Malware"] |}.

Definition scenario_tweet : Tweet.t := mk_tweet 1001 7 "I like rust" 10.

Definition scenario_user : User.t := mk_user 7 "bob" 50.

Definition scenario_env : Env :=
  mk_env (found [scenario_tweet] [scenario_user]) ok_webhook.

(** No keyword configured at all, and a search API that refuses the query. *)
Definition empty_config : KeywordConfig :=
  {| PRIMARY_KEYWORDS := []; PRODUCT := []; SERVICE := [] |}.

Definition refusing_env : Env :=
  mk_env (RaisesException "400 Bad Request") ok_webhook.

(** A webhook that answers the header with 204 and every item with 500. *)
Definition moody_webhook : nat -> Payload -> Response.t :=
  fun n _ => match n with
             | O => respond 204 ""
             | _ => respond 500 "server_error"
             end.

Definition moody_env : Env :=
  mk_env (found [scenario_tweet; mk_tweet 1002 7 "cargo build" 3]
                [scenario_user]) moody_webhook.

(** Four posts with impression counts 5, 20, 3 and 20. *)
Definition four_tweets : list Tweet.t :=
  [ mk_tweet 1 7 "rust a" 5; mk_tweet 2 7 "rust b" 20;
    mk_tweet 3 7 "rust c" 3; mk_tweet 4 7 "rust d" 20 ].

Definition four_env : Env := mk_env (found four_tweets [scenario_user]) ok_webhook.

Definition no_results_env : Env :=
  mk_env (ReturnsResponse {| data := None; includes_users := None |}) ok_webhook.

(* ===================================================================== *)
(** ** Start-up, and more vocabulary *)
(* ===================================================================== *)

(** The three module-level reads of the parsed [keywords.json]:
    [keyword_config.get("primary_keywords", [])] and its two siblings. *)
Definition load_keyword_config (keyword_config : gmap string (list string))
  : KeywordConfig :=
  {| PRIMARY_KEYWORDS := default [] (keyword_config !! "primary_keywords");
     PRODUCT := default [] (keyword_config !! "product_keywords");
     SERVICE := default [] (keyword_config !! "service_keywords") |}.

(** The whitespace characters of [l], in order. *)
Definition whitespace_of (l : list N) : list N := List.filter isspace l.

(** [s] ends with [suffix]. *)
Definition ends_with (suffix s : string) : Prop :=
  exists a, s = a +:+ suffix.

(** The log record of an accepted tweet: INFO, starting "Tweet matched: ". *)
Definition is_matched_record (r : LogRecord) : bool :=
  match r with
  | (INFO, msg) =>
      match strip_prefix "Tweet matched: " msg with
      | Some _ => true
      | None => false
      end
  | (ERROR, _) => false
  end.

(** A search answer with posts whose [includes] has no users, and a
    webhook that hands out a thread identifier nobody reads. *)
Definition usersless_env : Env :=
  mk_env (ReturnsResponse {| data := Some [mk_tweet 1001 7 "I like rust" 10];
                             includes_users := None |})
         (fun _ _ => {| Response.status_code := 200; Response.text := "ok" |}).

(** A tweet whose extended text differs from its truncated text. *)
Definition long_tweet : Tweet.t :=
  {| Tweet.id := 2001; Tweet.author_id := 7;
     Tweet.text := "A long post about...";
     Tweet.note_tweet := Some {[ "full_text" := "A long post about cargo" ]};
     Tweet.public_metrics := ∅ |}.

(** The no-break space U+00A0 and the ideographic space U+3000, which
    are whitespace for [str.strip] and for the class [\s], in UTF-8. *)
Definition nbsp : string := encode [0xA0%N].

Definition ideographic_space : string := encode [0x3000%N].




(* ===================================================================== *)
(** ** Proof automation *)
(* ===================================================================== *)

(** The three ways a run goes on after the search: into one of the two
    handlers, into the branch without posts, or, with the users looked up,
    into the loop.  Leaves the last one. *)
Ltac search_cases r users :=
  match goal with
  | |- context [search_recent_tweets ?env ?q ?t] =>
      destruct (search_recent_tweets env q t) as [?|?|r]; [done..|];
      destruct (truthy_list (data r)); [|done];
      destruct (includes_users r) as [users|]; [|done]
  end.

(** Write the characters of the literals of the pattern out. *)
Ltac decode_literals :=
  repeat match goal with
         | |- context [decode ?s] =>
             let v := eval vm_compute in (decode s) in
             change (decode s) with v
         | H : context [decode ?s] |- _ =>
             let v := eval vm_compute in (decode s) in
             change (decode s) with v in H
         end.

(** The condition of a decoder holds on the bytes that [encode_char]
    writes, given the bounds on their digits. *)
Ltac condition_holds :=
  match goal with
  | |- (if ?C then _ else _) = _ => assert (C = true) as ->
  end;
  [ unfold is_continuation;
    repeat (apply andb_true_intro; split);
    try (apply negb_true_iff, andb_false_iff;
         match goal with
         | H : (_ < 0xD800)%N \/ _ |- _ =>
             destruct H; [left | right]; apply N.leb_gt; lia
         end);
    apply N.leb_le; lia
  | f_equal; lia ].


(* ===================================================================== *)
(** ** Facts about strings *)
(* ===================================================================== *)

Lemma str_app_cons (c : ascii) (s t : string) :
  String c s +:+ t = String c (s +:+ t).
Proof. reflexivity. Qed.

Lemma str_app_nil_l (s : string) : "" +:+ s = s.
Proof. reflexivity. Qed.

Lemma str_app_nil_r (s : string) : s +:+ "" = s.
Proof. induction s as [|c s IH]; [done|]. by rewrite str_app_cons, IH. Qed.

Lemma str_app_assoc (a b c : string) : (a +:+ b) +:+ c = a +:+ (b +:+ c).
Proof. induction a as [|x a IH]; [done|]. by rewrite !str_app_cons, IH. Qed.

Lemma strip_prefix_Some (p s r : string) :
  strip_prefix p s = Some r <-> s = p +:+ r.
Proof.
  revert s. induction p as [|a p IH]; intros s; simpl.
  - split; [by intros [= ->] | by intros ->].
  - destruct s as [|b s]; [by split|].
    rewrite str_app_cons. destruct (Ascii.eqb_spec a b) as [->|Hne].
    + rewrite IH. split; [by intros -> | by intros [= ->]].
    + split; [done | intros [= -> _]; by destruct Hne].
Qed.

Lemma strip_prefix_app (p r : string) : strip_prefix p (p +:+ r) = Some r.
Proof. by apply strip_prefix_Some. Qed.

Lemma str_in_unfold (needle hay : string) :
  str_in needle hay =
    match strip_prefix needle hay with
    | Some _ => true
    | None =>
        match hay with
        | EmptyString => false
        | String _ hay' => str_in needle hay'
        end
    end.
Proof. by destruct hay. Qed.

(** [str_in] decides the substring relation, as the operator [in] does. *)
Lemma str_in_spec (needle hay : string) :
  str_in needle hay = true <-> substring_of needle hay.
Proof.
  split.
  - induction hay as [|c hay IH]; rewrite str_in_unfold;
      destruct (strip_prefix needle _) as [r|] eqn:Hp.
    + intros _. exists "", r. by apply strip_prefix_Some in Hp.
    + done.
    + intros _. exists "", r. by apply strip_prefix_Some in Hp.
    + intros H. destruct (IH H) as (a & b & ->).
      by exists (String c a), b.
  - intros (a & b & ->). induction a as [|c a IH].
    + rewrite str_in_unfold, str_app_nil_l. by rewrite strip_prefix_app.
    + rewrite str_in_unfold, str_app_cons.
      by destruct (strip_prefix needle _).
Qed.

Lemma str_in_false (needle hay : string) :
  str_in needle hay = false <-> ~ substring_of needle hay.
Proof. rewrite <- str_in_spec. by destruct (str_in needle hay). Qed.

(* ===================================================================== *)
(** ** Facts about the characters of a string *)
(* ===================================================================== *)

Lemma two_bytes_ge (x y cp : N) : two_bytes x y = Some cp -> (0x80 <= cp)%N.
Proof.
  unfold two_bytes. case_match; [|done]. intros [= <-].
  repeat match goal with H : _ && _ = true |- _ =>
    apply andb_true_iff in H as [H ?] end.
  by apply N.leb_le.
Qed.

Lemma three_bytes_ge (x y z cp : N) :
  three_bytes x y z = Some cp -> (0x80 <= cp)%N.
Proof.
  unfold three_bytes. case_match eqn:Hc; [|done]. intros [= <-].
  repeat match goal with H : _ && _ = true |- _ =>
    apply andb_true_iff in H as [H ?] end.
  match goal with H : (0x800 <=? _)%N = true |- _ => apply N.leb_le in H end.
  lia.
Qed.

Lemma four_bytes_ge (x y z u cp : N) :
  four_bytes x y z u = Some cp -> (0x80 <= cp)%N.
Proof.
  unfold four_bytes. case_match eqn:Hc; [|done]. intros [= <-].
  repeat match goal with H : _ && _ = true |- _ =>
    apply andb_true_iff in H as [H ?] end.
  match goal with H : (0x10000 <=? _)%N = true |- _ => apply N.leb_le in H end.
  lia.
Qed.

Lemma stray_ge (b : N) : (0x80 <= stray b)%N.
Proof. unfold stray. lia. Qed.

(** A run of bytes decodes to characters that are not ASCII, and to at
    least one of them unless it is empty. *)
Lemma decode_run_spec (r : string) :
  Forall (fun x => (0x80 <= x)%N) (decode_run r)
  /\ (r <> "" -> decode_run r <> []).
Proof.
  assert (forall n r, (String.length r <= n)%nat ->
            Forall (fun x => (0x80 <= x)%N) (decode_run r)
            /\ (r <> "" -> decode_run r <> [])) as H;
    [|by apply (H (String.length r))].
  clear r. induction n as [|n IH]; intros r Hlen.
  { destruct r; [by split | simpl in Hlen; lia]. }
  destruct r as [|a r1]; [by split|]. simpl in Hlen.
  assert (Forall (fun x => (0x80 <= x)%N) (stray (N_of_ascii a) :: decode_run r1))
    as Hstray.
  { apply Forall_cons. split; [apply stray_ge | apply IH; lia]. }
  cbn [decode_run].
  destruct r1 as [|b r2]; [by split|]. simpl in Hlen.
  destruct (two_bytes _ _) as [cp|] eqn:H2.
  { split; [|done]. apply Forall_cons.
    split; [by eapply two_bytes_ge | apply IH; lia]. }
  destruct r2 as [|c r3]; [by split|]. simpl in Hlen.
  destruct (three_bytes _ _ _) as [cp|] eqn:H3.
  { split; [|done]. apply Forall_cons.
    split; [by eapply three_bytes_ge | apply IH; lia]. }
  destruct r3 as [|d r4]; [by split|]. simpl in Hlen.
  destruct (four_bytes _ _ _ _) as [cp|] eqn:H4; [|by split].
  split; [|done]. apply Forall_cons.
  split; [by eapply four_bytes_ge | apply IH; lia].
Qed.

Lemma str_app_not_nil (p : string) (c : ascii) : p +:+ String c "" <> "".
Proof. by destruct p. Qed.

(** Bytes that wait in [pending] give a character that is not ASCII. *)
Lemma decode_from_pending (p s : string) :
  p <> "" -> exists x, x ∈ decode_from p s /\ (0x80 <= x)%N.
Proof.
  revert p. induction s as [|c s IH]; intros p Hp; simpl.
  - destruct (decode_run_spec p) as [Hge Hne].
    destruct (decode_run p) as [|x l] eqn:Hr; [by destruct (Hne Hp)|].
    exists x. split; [apply elem_of_cons; auto|].
    by apply Forall_cons in Hge as [? _].
  - destruct (N_of_ascii c <? 0x80)%N.
    + destruct (decode_run_spec p) as [Hge Hne].
      destruct (decode_run p) as [|x l] eqn:Hr; [by destruct (Hne Hp)|].
      exists x. split; [apply elem_of_app; left; apply elem_of_cons; auto|].
      by apply Forall_cons in Hge as [? _].
    + apply IH, str_app_not_nil.
Qed.

(** An ASCII byte is a character wherever it stands. *)
Lemma decode_from_ascii_byte (p a t : string) (c : ascii) :
  is_ascii_byte c = true ->
  decode_from p (a +:+ String c t)
  = decode_from p a ++ N_of_ascii c :: decode_from "" t.
Proof.
  unfold is_ascii_byte. intros Hc. revert p.
  induction a as [|x a IH]; intros p.
  - rewrite str_app_nil_l. simpl. by rewrite Hc.
  - rewrite str_app_cons. simpl. destruct (N_of_ascii x <? 0x80)%N.
    + by rewrite IH, <- app_assoc.
    + apply IH.
Qed.

Lemma decode_ascii_app (w b : string) :
  is_ascii w = true -> decode (w +:+ b) = codes w ++ decode b.
Proof.
  unfold decode. induction w as [|c w IH]; [done|].
  rewrite str_app_cons. cbn [is_ascii codes decode_from].
  intros [Hc Hw]%andb_true_iff.
  unfold is_ascii_byte in Hc. by rewrite Hc, IH.
Qed.


(** An ASCII word that is not empty keeps its characters inside any text,
    and cuts the text into two that decode apart. *)
Lemma decode_around_ascii (a w b : string) :
  is_ascii w = true -> w <> "" ->
  decode (a +:+ w +:+ b) = decode a ++ codes w ++ decode b.
Proof.
  intros Hw Hne. destruct w as [|c w]; [done|].
  cbn [is_ascii] in Hw. apply andb_true_iff in Hw as [Hc Hw].
  unfold decode at 1 2. rewrite str_app_cons, decode_from_ascii_byte by done.
  f_equal. cbn [codes]. rewrite <- app_comm_cons. f_equal.
  by apply decode_ascii_app.
Qed.

(** A string whose characters are all ASCII is a string of ASCII bytes. *)
Lemma decode_all_ascii (s : string) :
  Forall (fun x => (x < 0x80)%N) (decode s) ->
  is_ascii s = true /\ decode s = codes s.
Proof.
  unfold decode. induction s as [|c s IH]; [done|].
  cbn [decode_from is_ascii codes]. unfold is_ascii_byte.
  destruct (N_of_ascii c <? 0x80)%N eqn:Hc; simpl.
  - intros [_ H]%Forall_cons. destruct (IH H) as [-> ->]. done.
  - intros H.
    destruct (decode_from_pending (String c "") s) as (x & Hin & Hx); [done|].
    rewrite Forall_forall in H. specialize (H x Hin). lia.
Qed.

Lemma encode_app (l1 l2 : list N) :
  encode (l1 ++ l2) = encode l1 +:+ encode l2.
Proof.
  induction l1 as [|c l1 IH]; [done|]. simpl.
  by rewrite IH, str_app_assoc.
Qed.

Lemma encode_codes (s : string) : is_ascii s = true -> encode (codes s) = s.
Proof.
  induction s as [|c s IH]; [done|]. cbn [is_ascii codes encode].
  unfold is_ascii_byte. intros [Hc Hs]%andb_true_iff.
  unfold encode_char. rewrite Hc, ascii_N_embedding, IH by done. done.
Qed.

(** The first byte that a character which is not ASCII is encoded with is
    not ASCII either. *)
Lemma encode_char_not_ascii (c : N) :
  (0x80 <= c)%N ->
  exists b r, encode_char c = String b r /\ is_ascii_byte b = false.
Proof.
  intros Hc. unfold encode_char, is_ascii_byte.
  destruct (N.ltb_spec c 0x80) as [?|_]; [lia|].
  assert (forall n, (0x80 <= n)%N -> (n < 0x100)%N ->
            (N_of_ascii (ascii_of_N n) <? 0x80)%N = false) as Hbyte.
  { intros n ? ?. rewrite N_ascii_embedding by done. apply N.ltb_ge. lia. }
  assert (forall d q, (c / d < q)%N ->
            forall k, (k + q <= 0x100)%N -> (0x80 <= k)%N ->
            (0x80 <= k + c / d)%N /\ (k + c / d < 0x100)%N) as Hlead.
  { intros d q Hq k ? ?. generalize dependent (c / d)%N. intros; lia. }
  destruct (N.ltb_spec c 0x800) as [H1|H1].
  { eexists _, _. split; [done|].
    apply Hbyte; apply (Hlead 0x40 0x20 ltac:(apply N.Div0.div_lt_upper_bound; lia))%N; lia. }
  destruct (N.ltb_spec c 0x10000) as [H2|H2].
  { eexists _, _. split; [done|].
    apply Hbyte; apply (Hlead 0x1000 0x10 ltac:(apply N.Div0.div_lt_upper_bound; lia))%N; lia. }
  destruct (N.ltb_spec c 0x110000) as [H3|H3].
  { eexists _, _. split; [done|].
    apply Hbyte; apply (Hlead 0x40000 0x5 ltac:(apply N.Div0.div_lt_upper_bound; lia))%N; lia. }
  eexists _, _. split; [done|].
  pose proof (N.mod_lt (c - 0x110000) 0x80 ltac:(done)) as Hm.
  generalize dependent ((c - 0x110000) mod 0x80)%N. intros m Hm.
  apply Hbyte; lia.
Qed.

(** Characters that encode to ASCII bytes are those bytes. *)
Lemma encode_ascii_inv (l : list N) (s : string) :
  encode l = s -> is_ascii s = true -> l = codes s.
Proof.
  revert s. induction l as [|c l IH]; intros s <-; [done|].
  cbn [encode]. destruct (N.ltb_spec c 0x80) as [Hc|Hc].
  - unfold encode_char. rewrite (proj2 (N.ltb_lt _ _) Hc).
    rewrite str_app_cons, str_app_nil_l. cbn [is_ascii codes].
    intros [_ Hs]%andb_true_iff.
    rewrite N_ascii_embedding by lia. f_equal. by apply IH.
  - destruct (encode_char_not_ascii c Hc) as (b & r & -> & Hb).
    rewrite str_app_cons. cbn [is_ascii]. by rewrite Hb.
Qed.

Lemma is_ascii_app (a b : string) :
  is_ascii (a +:+ b) = is_ascii a && is_ascii b.
Proof.
  induction a as [|c a IH]; [done|].
  rewrite str_app_cons. cbn [is_ascii]. by rewrite IH, andb_assoc.
Qed.

(* ===================================================================== *)
(** ** Facts about [lower] *)
(* ===================================================================== *)

Lemma lookup_image_ascii (c t : N) (table : list (N * N * N * N)) :
  forallb entry_image_ok table = true ->
  lookup_image c table = Some t -> (t < 0x80)%N ->
  (c < 0x80)%N \/ (c = 0x212A /\ t = 0x6B)%N.
Proof.
  induction table as [|[[[first last] step] image] table IH]; [done|].
  cbn [forallb lookup_image]. intros [He Ht]%andb_true_iff.
  destruct (N.ltb_spec c first) as [|Hf]; [done|].
  destruct (_ && _) eqn:Hhit; [|by apply IH].
  apply andb_true_iff in Hhit as [Hl%N.leb_le _]. intros [= <-] Hlt.
  unfold entry_image_ok in He.
  apply orb_true_iff in He as [He | He];
    [apply orb_true_iff in He as [He%N.ltb_lt | He%N.leb_le]|].
  - left. lia.
  - lia.
  - apply andb_true_iff in He as [He H3%N.eqb_eq].
    apply andb_true_iff in He as [H1%N.eqb_eq H2%N.eqb_eq].
    right. split; lia.
Qed.

Lemma lower_table_images : forallb entry_image_ok lower_table = true.
Proof. by vm_compute. Qed.

Lemma lookup_image_below (c : N) (table : list (N * N * N * N))
    (e : N * N * N * N) :
  head table = Some e -> (c < e.1.1.1)%N -> lookup_image c table = None.
Proof.
  destruct table as [|[[[first last] step] image] table]; [done|].
  intros [= <-]. simpl. intros Hc. by rewrite (proj2 (N.ltb_lt _ _) Hc).
Qed.

(** On ASCII the lower case is that of the letters A to Z. *)
Lemma lower_char_ascii (c : N) :
  (c < 0x80)%N -> lower_char c = [ascii_lower_code c].
Proof.
  intros Hc. unfold lower_char, ascii_lower_code.
  destruct (N.eqb_spec c 0x130) as [|_]; [lia|].
  unfold lower_table, lower_ascii_entry. cbn [lookup_image].
  destruct (N.ltb_spec c 0x41) as [H1|H1].
  { rewrite (proj2 (N.leb_gt _ _)) by lia. done. }
  rewrite (proj2 (N.leb_le 0x41 c)) by done.
  destruct (N.leb_spec c 0x5A) as [H2|H2].
  - rewrite N.mod_1_r, N.eqb_refl. cbn [andb]. f_equal. lia.
  - cbn [andb].
    rewrite (lookup_image_below c _ (0xC0, 0xD6, 1, 0xE0)%N);
      [done | reflexivity | cbn [fst]; lia].
Qed.

(** Out of ASCII only the Kelvin sign has an ASCII lower case, the letter
    k; so does no capital sigma, in whatever context. *)
Lemma lower_char_not_ascii (c : N) :
  (0x80 <= c)%N ->
  exists x, x ∈ lower_char c /\ ((0x80 <= x)%N \/ x = 0x6B%N).
Proof.
  intros Hc. unfold lower_char.
  destruct (N.eqb_spec c 0x130) as [|_].
  { exists 0x307%N. split; [|left; lia]. apply elem_of_cons. right.
    apply elem_of_cons. auto. }
  destruct (lookup_image c lower_table) as [t|] eqn:Ht.
  - exists t. split; [apply elem_of_cons; auto|].
    destruct (N.ltb_spec t 0x80) as [Hlt|]; [|by left].
    destruct (lookup_image_ascii c t _ lower_table_images Ht Hlt)
      as [? | [_ ->]]; [lia | by right].
  - exists c. split; [apply elem_of_cons; auto | by left].
Qed.


(** ASCII characters are lowered where they stand, whatever surrounds
    them. *)
Lemma lower_from_around_ascii (before x w y : list N) :
  Forall (fun c => (c < 0x80)%N) w ->
  exists x' y',
    lower_from before (x ++ w ++ y) = x' ++ map ascii_lower_code w ++ y'.
Proof.
  intros Hw. revert before. induction x as [|c x IH]; intros before.
  - exists []. simpl. revert before.
    induction Hw as [|c w Hc Hw IH]; intros before.
    + by exists (lower_from before y).
    + cbn [app lower_from map].
      destruct (N.eqb_spec c 0x3A3) as [|_]; [lia|].
      rewrite lower_char_ascii by done.
      destruct (IH (c :: before)) as [y' ->]. by exists y'.
  - destruct (IH (c :: before)) as (x' & y' & H).
    cbn [app lower_from]. rewrite H.
    eexists (_ ++ x'), y'. by rewrite <- app_assoc.
Qed.

(** Characters whose lower case is ASCII without the letter k are ASCII. *)
Lemma lower_from_ascii_inv (before l r : list N) :
  lower_from before l = r ->
  Forall (fun x => (x < 0x80)%N) r -> 0x6B%N ∉ r ->
  Forall (fun x => (x < 0x80)%N) l /\ r = map ascii_lower_code l.
Proof.
  revert before r. induction l as [|c l IH]; intros before r <- Hr Hk.
  { by split. }
  cbn [lower_from] in *.
  apply Forall_app in Hr as [Hpiece Hrest].
  assert (c < 0x80)%N as Hc.
  { destruct (N.ltb_spec c 0x80) as [|Hge]; [done|]. exfalso.
    assert (exists x, x ∈ (if (c =? 0x3A3)%N
                           then [if final_sigma before l
                                 then 0x3C2%N else 0x3C3%N]
                           else lower_char c)
                      /\ ((0x80 <= x)%N \/ x = 0x6B%N)) as (x & Hin & Hx).
    { destruct (c =? 0x3A3)%N; [|by apply lower_char_not_ascii].
      eexists. split; [apply elem_of_cons; left; reflexivity|].
      left. destruct (final_sigma before l); lia. }
    destruct Hx as [Hx | ->].
    - rewrite Forall_forall in Hpiece. specialize (Hpiece x Hin). lia.
    - apply Hk, elem_of_app. by left. }
  destruct (N.eqb_spec c 0x3A3) as [|_]; [lia|].
  rewrite lower_char_ascii in * by done.
  destruct (IH (c :: before) _ eq_refl Hrest) as [Hl Heq].
  { intros Hin. apply Hk, elem_of_app. by right. }
  split; [by apply Forall_cons|]. simpl. by rewrite <- Heq.
Qed.

Lemma codes_ascii (s : string) :
  is_ascii s = true -> Forall (fun x => (x < 0x80)%N) (codes s).
Proof.
  induction s as [|c s IH]; [by intros; apply Forall_nil|].
  cbn [is_ascii codes]. unfold is_ascii_byte.
  intros [Hc%N.ltb_lt Hs]%andb_true_iff. apply Forall_cons. auto.
Qed.

Lemma encode_map_ascii_lower (s : string) :
  is_ascii s = true ->
  encode (map ascii_lower_code (codes s)) = ascii_lower s.
Proof.
  induction s as [|c s IH]; [done|]. cbn [is_ascii codes map encode ascii_lower].
  unfold is_ascii_byte. intros [Hc%N.ltb_lt Hs]%andb_true_iff.
  rewrite IH by done. unfold encode_char.
  replace (ascii_lower_code (N_of_ascii c) <? 0x80)%N with true; [done|].
  symmetry. apply N.ltb_lt. unfold ascii_lower_code.
  destruct (_ && _) eqn:H; [|done].
  apply andb_true_iff in H as [_ H%N.leb_le]. lia.
Qed.


Lemma ascii_lower_app (a b : string) :
  ascii_lower (a +:+ b) = ascii_lower a +:+ ascii_lower b.
Proof.
  induction a as [|c a IH]; [done|].
  rewrite str_app_cons. cbn [ascii_lower]. by rewrite IH, str_app_cons.
Qed.

(* ===================================================================== *)
(** ** Facts about the URL pattern and its removal *)
(* ===================================================================== *)

Lemma expect_Some (p l r : list N) : expect p l = Some r <-> l = p ++ r.
Proof.
  revert l. induction p as [|a p IH]; intros l; simpl.
  - split; [by intros [= ->] | by intros ->].
  - destruct l as [|b l]; [by split|].
    destruct (N.eqb_spec a b) as [->|Hne].
    + rewrite IH. split; [by intros -> | by intros [= ->]].
    + split; [done | intros [= -> _]; by destruct Hne].
Qed.

Lemma expect_app (p r : list N) : expect p (p ++ r) = Some r.
Proof. by apply expect_Some. Qed.

Lemma take_skip_nonspace (l : list N) : l = take_nonspace l ++ skip_nonspace l.
Proof.
  induction l as [|c l IH]; [done|]. simpl.
  destruct (isspace c); [done|]. simpl. by rewrite <- IH.
Qed.

Lemma length_skip_nonspace (l : list N) :
  (length (skip_nonspace l) <= length l)%nat.
Proof.
  induction l as [|c l IH]; [done|]. simpl.
  destruct (isspace c); simpl; lia.
Qed.

(** What [\S+] leaves is empty or starts with whitespace. *)
Lemma skip_nonspace_first (l : list N) (c : N) :
  head (skip_nonspace l) = Some c -> isspace c = true.
Proof.
  induction l as [|x l IH]; [done|]. simpl.
  destruct (isspace x) eqn:Hx; [|done]. by intros [= <-].
Qed.

Lemma re_nonspace_plus_Some (l rest : list N) :
  re_nonspace_plus l = Some rest <->
  exists c r, l = c :: r /\ isspace c = false /\ rest = skip_nonspace r.
Proof.
  destruct l as [|c l]; simpl.
  - split; [done | by intros (? & ? & ? & _)].
  - destruct (isspace c) eqn:Hc.
    + split; [done | intros (? & ? & [= <- <-] & ? & _); congruence].
    + split.
      * intros [= <-]. by exists c, l.
      * by intros (? & ? & [= <- <-] & _ & ->).
Qed.

Lemma re_url_tail_Some (l rest : list N) :
  re_url_tail l = Some rest <->
  exists c r, l = decode "://" ++ c :: r /\ isspace c = false
              /\ rest = skip_nonspace r.
Proof.
  unfold re_url_tail. destruct (expect (decode "://") l) as [t|] eqn:Hp.
  - apply expect_Some in Hp as ->. rewrite re_nonspace_plus_Some.
    split; intros (c & r & H & ?); exists c, r; split; try done.
    + by rewrite H.
    + by apply app_inv_head in H.
  - split; [done|]. intros (c & r & -> & _).
    by rewrite expect_app in Hp.
Qed.

(** The anchored matcher succeeds exactly on a scheme, [://] and a
    non-empty run of non-whitespace, and it consumes the maximal run. *)
Lemma re_url_match_Some (l rest : list N) :
  re_url_match l = Some rest <->
  exists scheme c r,
    (scheme = decode "http://" \/ scheme = decode "https://") /\
    l = scheme ++ c :: r /\ isspace c = false /\ rest = skip_nonspace r.
Proof.
  unfold re_url_match. split.
  - destruct (expect (decode "http") l) as [t|] eqn:Hp; [|done].
    apply expect_Some in Hp as ->.
    destruct (expect (decode "s") t) as [t'|] eqn:Hs.
    + apply expect_Some in Hs as ->.
      destruct (re_url_tail t') as [x|] eqn:Ht.
      * intros [= <-]. apply re_url_tail_Some in Ht as (c & r & -> & ? & ?).
        by exists (decode "https://"), c, r; auto.
      * intros (c & r & H & _)%re_url_tail_Some. decode_literals.
        by discriminate H.
    + intros (c & r & -> & ? & ?)%re_url_tail_Some.
      by exists (decode "http://"), c, r; auto.
  - intros (scheme & c & r & [-> | ->] & -> & Hc & ->);
      unfold re_url_tail; decode_literals; simpl; by rewrite Hc.
Qed.

Lemma re_url_match_url_start (l : list N) :
  is_Some (re_url_match l) <-> url_start l.
Proof.
  split.
  - intros [rest (scheme & c & r & ? & ? & ? & _)%re_url_match_Some].
    by exists scheme, c, r.
  - intros (scheme & c & r & ? & ? & ?). exists (skip_nonspace r).
    apply re_url_match_Some. by exists scheme, c, r.
Qed.

Lemma re_url_match_length (l rest : list N) :
  re_url_match l = Some rest -> (length rest < length l)%nat.
Proof.
  intros (scheme & c & r & _ & -> & _ & ->)%re_url_match_Some.
  rewrite List.length_app. simpl. pose proof (length_skip_nonspace r). lia.
Qed.

(** What a match leaves behind is the end of the text matched. *)
Lemma re_url_match_suffix (l rest : list N) :
  re_url_match l = Some rest -> exists p, l = p ++ rest.
Proof.
  intros (scheme & c & r & _ & -> & _ & ->)%re_url_match_Some.
  exists (scheme ++ c :: take_nonspace r).
  rewrite <- app_assoc. simpl. by rewrite <- take_skip_nonspace.
Qed.

(** A match needs a first character that is not whitespace. *)
Lemma url_start_first (l : list N) (c : N) :
  url_start l -> head l = Some c -> isspace c = false.
Proof.
  intros (scheme & x & r & [-> | ->] & -> & _); decode_literals;
    by intros [= <-].
Qed.

Lemma url_start_app (l t : list N) : url_start l -> url_start (l ++ t).
Proof.
  intros (scheme & c & r & Hs & -> & Hc).
  exists scheme, c, (r ++ t). by rewrite <- app_assoc.
Qed.

(** Whether a match starts at the head is decided within the leading run
    of non-whitespace. *)
Lemma url_start_take_nonspace (l : list N) :
  url_start l -> url_start (take_nonspace l).
Proof.
  intros (scheme & c & r & Hs & -> & Hc).
  exists scheme, c, (take_nonspace r). split; [done|]. split; [|done].
  destruct Hs as [-> | ->]; decode_literals; simpl; by rewrite Hc.
Qed.

Lemma has_url_unfold (l : list N) :
  has_url l =
    match re_url_match l with
    | Some _ => true
    | None =>
        match l with
        | [] => false
        | _ :: l' => has_url l'
        end
    end.
Proof. by destruct l. Qed.

(** Any fuel that covers the length of the text gives the same result. *)
Lemma re_sub_url_fuel (f1 f2 : nat) (l : list N) :
  (length l <= f1)%nat -> (length l <= f2)%nat ->
  re_sub_url f1 l = re_sub_url f2 l.
Proof.
  revert f2 l. induction f1 as [|f1 IH]; intros f2 l H1 H2.
  - destruct l; [|simpl in H1; lia]. by destruct f2.
  - destruct f2 as [|f2].
    { destruct l; [done | simpl in H2; lia]. }
    simpl. destruct (re_url_match l) as [rest|] eqn:Hm.
    + apply re_url_match_length in Hm. apply IH; lia.
    + destruct l as [|c l]; [done|]. simpl in *. f_equal. apply IH; lia.
Qed.

(** The scan of [re.sub], as equations on [strip_links_chars] itself. *)
Lemma strip_links_chars_unfold (l : list N) :
  strip_links_chars l =
    match re_url_match l with
    | Some rest => strip_links_chars rest
    | None =>
        match l with
        | [] => []
        | c :: l' => c :: strip_links_chars l'
        end
    end.
Proof.
  unfold strip_links_chars. destruct l as [|c l]; [done|].
  cbn [length re_sub_url].
  destruct (re_url_match (c :: l)) as [rest|] eqn:Hm.
  - apply re_url_match_length in Hm. simpl in Hm.
    apply re_sub_url_fuel; lia.
  - done.
Qed.

(** The leading run of non-whitespace of the result is a prefix of the
    text: removing a match never joins two pieces into a new word. *)
Lemma re_sub_url_take_nonspace (fuel : nat) (l : list N) :
  exists r, l = take_nonspace (re_sub_url fuel l) ++ r.
Proof.
  revert l. induction fuel as [|fuel IH]; intros l.
  - exists (skip_nonspace l). apply take_skip_nonspace.
  - simpl. destruct (re_url_match l) as [rest|] eqn:Hm.
    + assert (take_nonspace (re_sub_url fuel rest) = []) as ->;
        [|by exists l].
      apply re_url_match_Some in Hm as (_ & _ & r & _ & _ & _ & ->).
      destruct (skip_nonspace r) as [|w rest] eqn:Hr; [by destruct fuel|].
      assert (isspace w = true) as Hw.
      { apply (skip_nonspace_first r). by rewrite Hr. }
      destruct fuel as [|fuel']; simpl; [by rewrite Hw|].
      destruct (re_url_match (w :: rest)) as [x|] eqn:Hx.
      * assert (isspace w = false); [|congruence].
        apply (url_start_first (w :: rest)); [|done].
        apply re_url_match_url_start. by exists x.
      * simpl. by rewrite Hw.
    + destruct l as [|c l]; [by exists []|]. simpl.
      destruct (isspace c); [by exists (c :: l)|].
      destruct (IH l) as [r Hr]. exists r. simpl. by rewrite <- Hr.
Qed.

(** No match of the pattern is left in the result. *)
Lemma re_sub_url_no_url (fuel : nat) (l : list N) :
  (length l <= fuel)%nat -> has_url (re_sub_url fuel l) = false.
Proof.
  revert l. induction fuel as [|fuel IH]; intros l Hlen.
  - destruct l; [done | simpl in Hlen; lia].
  - simpl. destruct (re_url_match l) as [rest|] eqn:Hm.
    + apply re_url_match_length in Hm. apply IH. lia.
    + destruct l as [|c l]; [done|]. simpl in Hlen.
      rewrite has_url_unfold, IH by lia.
      destruct (re_url_match (c :: re_sub_url fuel l)) as [x|] eqn:Hx;
        [|done].
      assert (is_Some (re_url_match (c :: l))) as [? ?]; [|congruence].
      apply re_url_match_url_start.
      destruct (re_sub_url_take_nonspace fuel l) as [r Hr].
      assert (url_start (take_nonspace (c :: re_sub_url fuel l))) as Hu.
      { apply url_start_take_nonspace, re_url_match_url_start. by exists x. }
      simpl in Hu. destruct (isspace c) eqn:Hc.
      { destruct Hu as (? & ? & ? & [-> | ->] & H & _);
          decode_literals; by discriminate H. }
      rewrite Hr, app_comm_cons. by apply url_start_app.
Qed.

Lemma strip_links_chars_no_url (l : list N) :
  has_url (strip_links_chars l) = false.
Proof. by apply re_sub_url_no_url. Qed.

(** A text without a match is returned as it is. *)
Lemma re_sub_url_id (fuel : nat) (l : list N) :
  has_url l = false -> re_sub_url fuel l = l.
Proof.
  revert l. induction fuel as [|fuel IH]; intros l; [done|].
  rewrite has_url_unfold. simpl.
  destruct (re_url_match l); [done|].
  destruct l as [|c l]; [done|]. intros H. by rewrite IH.
Qed.

Lemma strip_links_chars_id (l : list N) :
  has_url l = false -> strip_links_chars l = l.
Proof. apply re_sub_url_id. Qed.

(** Removing links only removes: a property of every character of the
    text is one of every character of the result. *)
Lemma re_sub_url_Forall (P : N -> Prop) (fuel : nat) (l : list N) :
  Forall P l -> Forall P (re_sub_url fuel l).
Proof.
  revert l. induction fuel as [|fuel IH]; intros l Hl; [done|]. simpl.
  destruct (re_url_match l) as [rest|] eqn:Hm.
  - apply IH. apply re_url_match_suffix in Hm as [p ->].
    by apply Forall_app in Hl as [_ ?].
  - destruct l as [|c l]; [done|]. apply Forall_cons in Hl as [? ?].
    apply Forall_cons. auto.
Qed.

(* ===================================================================== *)
(** ** Facts about [strip] *)
(* ===================================================================== *)

Lemma lstrip_chars_first (l : list N) (c : N) :
  head (lstrip_chars l) = Some c -> isspace c = false.
Proof.
  induction l as [|x l IH]; [done|]. simpl.
  destruct (isspace x) eqn:Hx; [done|]. by intros [= <-].
Qed.

Lemma lstrip_chars_suffix (l : list N) : exists a, l = a ++ lstrip_chars l.
Proof.
  induction l as [|x l [a IH]]; [by exists []|]. simpl.
  destruct (isspace x); [|by exists []].
  exists (x :: a). simpl. by rewrite <- IH.
Qed.

Lemma rstrip_chars_first (l : list N) (c : N) :
  head (rstrip_chars l) = Some c -> head l = Some c.
Proof.
  destruct l as [|x l]; [done|]. simpl.
  destruct (rstrip_chars l); [|done]. by destruct (isspace x).
Qed.

Lemma rstrip_chars_last (l : list N) (c : N) :
  last (rstrip_chars l) = Some c -> isspace c = false.
Proof.
  induction l as [|x l IH]; [done|]. simpl.
  destruct (rstrip_chars l) as [|y r] eqn:Hr.
  - destruct (isspace x) eqn:Hx; [done|]. by intros [= <-].
  - done.
Qed.

Lemma rstrip_chars_prefix (l : list N) : exists b, l = rstrip_chars l ++ b.
Proof.
  induction l as [|x l [b IH]]; [by exists []|]. simpl.
  destruct (rstrip_chars l) as [|y r] eqn:Hr.
  - destruct (isspace x); [by exists (x :: l)|].
    exists b. simpl in *. congruence.
  - exists b. simpl in *. congruence.
Qed.

(** [strip] leaves no whitespace at either end. *)
Lemma strip_chars_trimmed (l : list N) : trimmed (strip_chars l).
Proof.
  split; intros c H.
  - apply rstrip_chars_first in H. by apply lstrip_chars_first in H.
  - by apply rstrip_chars_last in H.
Qed.

(** A trimmed text is what [strip] returns for it. *)
Lemma lstrip_chars_id (l : list N) :
  (forall c, head l = Some c -> isspace c = false) -> lstrip_chars l = l.
Proof.
  destruct l as [|x l]; [done|]. simpl. intros H. by rewrite (H x).
Qed.

Lemma rstrip_chars_id (l : list N) :
  (forall c, last l = Some c -> isspace c = false) -> rstrip_chars l = l.
Proof.
  induction l as [|x l IH]; [done|]. intros H. simpl.
  destruct l as [|y l].
  - simpl. by rewrite (H x).
  - rewrite IH; [done|]. intros c Hc. apply H. by rewrite last_cons, Hc.
Qed.

Lemma strip_chars_id (l : list N) : trimmed l -> strip_chars l = l.
Proof.
  intros [Hh Hl]. unfold strip_chars.
  rewrite lstrip_chars_id by done. by apply rstrip_chars_id.
Qed.

Lemma has_url_suffix (a b : list N) :
  has_url (a ++ b) = false -> has_url b = false.
Proof.
  induction a as [|x a IH]; [done|].
  rewrite <- app_comm_cons, has_url_unfold.
  destruct (re_url_match _); [done|]. apply IH.
Qed.

Lemma has_url_prefix (a b : list N) :
  has_url (a ++ b) = false -> has_url a = false.
Proof.
  induction a as [|x a IH]; [done|].
  rewrite <- app_comm_cons, (has_url_unfold (x :: a ++ b)),
    (has_url_unfold (x :: a)).
  destruct (re_url_match (x :: a ++ b)) as [r|] eqn:Hab; [done|].
  intros H. destruct (re_url_match (x :: a)) as [r|] eqn:Ha; [|by apply IH].
  assert (is_Some (re_url_match (x :: a ++ b))) as [? ?];
    [|congruence].
  apply re_url_match_url_start. rewrite app_comm_cons.
  apply url_start_app, re_url_match_url_start. by exists r.
Qed.

(** Trimming does not bring a match back. *)
Lemma strip_chars_no_url (l : list N) :
  has_url l = false -> has_url (strip_chars l) = false.
Proof.
  intros H. unfold strip_chars.
  destruct (lstrip_chars_suffix l) as [a Ha].
  destruct (rstrip_chars_prefix (lstrip_chars l)) as [b Hb].
  apply (has_url_prefix _ b). rewrite <- Hb.
  apply (has_url_suffix a). by rewrite <- Ha.
Qed.

(** Trimming only removes. *)
Lemma strip_chars_Forall (P : N -> Prop) (l : list N) :
  Forall P l -> Forall P (strip_chars l).
Proof.
  intros H. unfold strip_chars.
  destruct (lstrip_chars_suffix l) as [a Ha].
  destruct (rstrip_chars_prefix (lstrip_chars l)) as [b Hb].
  rewrite Ha in H. apply Forall_app in H as [_ H].
  rewrite Hb in H. by apply Forall_app in H as [? _].
Qed.

(* ===================================================================== *)
(** ** Decoding what [encode] wrote *)
(* ===================================================================== *)

Local Open Scope N_scope.

Lemma two_bytes_enc (q m : N) :
  2 <= q -> q < 0x20 -> m < 0x40 ->
  two_bytes (0xC0 + q) (0x80 + m) = Some (q * 0x40 + m).
Proof. intros. unfold two_bytes. condition_holds. Qed.

Lemma two_bytes_high (x y : N) : 0xE0 <= x -> two_bytes x y = None.
Proof.
  intros. unfold two_bytes.
  destruct (N.leb_spec x 0xDF); [lia|]. by rewrite andb_false_r.
Qed.

Lemma three_bytes_enc (q m2 m1 : N) :
  let cp := q * 0x1000 + m2 * 0x40 + m1 in
  q < 0x10 -> m2 < 0x40 -> m1 < 0x40 -> 0x800 <= cp ->
  cp < 0xD800 \/ 0xDFFF < cp ->
  three_bytes (0xE0 + q) (0x80 + m2) (0x80 + m1) = Some cp.
Proof. intros cp ? ? ? ? ?. subst cp. unfold three_bytes. condition_holds. Qed.

Lemma three_bytes_high (x y z : N) : 0xF0 <= x -> three_bytes x y z = None.
Proof.
  intros. unfold three_bytes.
  destruct (N.leb_spec x 0xEF); [lia|]. by rewrite andb_false_r.
Qed.

Lemma four_bytes_enc (q m3 m2 m1 : N) :
  let cp := q * 0x40000 + m3 * 0x1000 + m2 * 0x40 + m1 in
  m3 < 0x40 -> m2 < 0x40 -> m1 < 0x40 -> 0x10000 <= cp -> cp <= 0x10FFFF ->
  four_bytes (0xF0 + q) (0x80 + m3) (0x80 + m2) (0x80 + m1) = Some cp.
Proof. intros cp ? ? ? ? ?. subst cp. unfold four_bytes. condition_holds. Qed.

(** The digits of a number in base 64. *)
Lemma base_64 (c : N) :
  exists q m, c / 0x40 = q /\ c mod 0x40 = m /\ c = q * 0x40 + m /\ m < 0x40.
Proof.
  exists (c / 0x40), (c mod 0x40). split; [done|]. split; [done|].
  split; [|by apply N.mod_lt].
  rewrite N.mul_comm. apply N.div_mod. done.
Qed.

(** The bytes that a character other than ASCII is written with. *)
Lemma encode_char_bytes (c : N) :
  0x80 <= c -> is_scalar c = true ->
  (exists q m,
     2 <= q /\ q < 0x20 /\ m < 0x40 /\ c = q * 0x40 + m /\
     encode_char c
     = String (ascii_of_N (0xC0 + q)) (String (ascii_of_N (0x80 + m)) ""))
  \/ (exists q m2 m1,
        q < 0x10 /\ m2 < 0x40 /\ m1 < 0x40 /\ 0x800 <= c /\
        (c < 0xD800 \/ 0xDFFF < c) /\
        c = q * 0x1000 + m2 * 0x40 + m1 /\
        encode_char c
        = String (ascii_of_N (0xE0 + q))
            (String (ascii_of_N (0x80 + m2))
               (String (ascii_of_N (0x80 + m1)) "")))
  \/ (exists q m3 m2 m1,
        q < 0x10 /\ m3 < 0x40 /\ m2 < 0x40 /\ m1 < 0x40 /\ 0x10000 <= c /\
        c <= 0x10FFFF /\
        c = q * 0x40000 + m3 * 0x1000 + m2 * 0x40 + m1 /\
        encode_char c
        = String (ascii_of_N (0xF0 + q))
            (String (ascii_of_N (0x80 + m3))
               (String (ascii_of_N (0x80 + m2))
                  (String (ascii_of_N (0x80 + m1)) "")))).
Proof.
  intros Hc Hs. unfold encode_char.
  assert (c < 0xD800 \/ 0xDFFF < c /\ c <= 0x10FFFF) as Hscalar.
  { unfold is_scalar in Hs. apply orb_true_iff in Hs as [H|H].
    - left. by apply N.ltb_lt.
    - right. apply andb_true_iff in H as [?%N.ltb_lt ?%N.leb_le]. done. }
  clear Hs.
  replace (c / 0x1000) with (c / 0x40 / 0x40)
    by (by rewrite N.Div0.div_div).
  replace (c / 0x40000) with (c / 0x40 / 0x40 / 0x40)
    by (by rewrite !N.Div0.div_div).
  destruct (base_64 c) as (q1 & m1 & -> & -> & Hc1 & Hm1).
  destruct (base_64 q1) as (q2 & m2 & -> & -> & Hc2 & Hm2).
  destruct (base_64 q2) as (q3 & m3 & -> & -> & Hc3 & Hm3).
  destruct (N.ltb_spec c 0x80); [lia|].
  destruct (N.ltb_spec c 0x800).
  { left. exists q1, m1. repeat split; try done; lia. }
  destruct (N.ltb_spec c 0x10000).
  { right. left. exists q2, m2, m1. repeat split; try done; lia. }
  destruct (N.ltb_spec c 0x110000); [|lia].
  right. right. exists q3, m3, m2, m1. repeat split; try done; lia.
Qed.

Lemma byte_of_N (n : N) : n < 0x100 -> N_of_ascii (ascii_of_N n) = n.
Proof. apply N_ascii_embedding. Qed.

(** A character other than ASCII is read back from its bytes. *)
Lemma decode_run_encode_char (c : N) (r : string) :
  0x80 <= c -> is_scalar c = true ->
  decode_run (encode_char c +:+ r) = c :: decode_run r.
Proof.
  intros Hc Hs.
  destruct (encode_char_bytes c Hc Hs)
    as [(q & m & ? & ? & ? & -> & ->)
       |[(q & m2 & m1 & ? & ? & ? & ? & ? & -> & ->)
        |(q & m3 & m2 & m1 & ? & ? & ? & ? & ? & ? & -> & ->)]];
    rewrite !str_app_cons, str_app_nil_l; cbn [decode_run];
    rewrite !byte_of_N by lia.
  - by rewrite two_bytes_enc.
  - rewrite two_bytes_high by lia. by rewrite three_bytes_enc.
  - rewrite two_bytes_high, three_bytes_high by lia.
    by rewrite four_bytes_enc.
Qed.

(** Its bytes wait in [pending] for the end of the run. *)
Lemma decode_from_encode_char (c : N) (p s : string) :
  0x80 <= c -> is_scalar c = true ->
  decode_from p (encode_char c +:+ s) = decode_from (p +:+ encode_char c) s.
Proof.
  intros Hc Hs.
  assert (forall n, 0x80 <= n -> n < 0x100 ->
            (N_of_ascii (ascii_of_N n) <? 0x80) = false) as Hbyte.
  { intros n ? ?. rewrite byte_of_N by done. apply N.ltb_ge. lia. }
  assert (forall (a : ascii) (p t : string),
            (p +:+ String a "") +:+ t = p +:+ String a t) as Hsnoc.
  { intros a p' t. by rewrite str_app_assoc. }
  destruct (encode_char_bytes c Hc Hs)
    as [(q & m & ? & ? & ? & -> & ->)
       |[(q & m2 & m1 & ? & ? & ? & ? & ? & -> & ->)
        |(q & m3 & m2 & m1 & ? & ? & ? & ? & ? & ? & -> & ->)]];
    rewrite !str_app_cons, str_app_nil_l; cbn [decode_from];
    rewrite !Hbyte by lia; by rewrite !Hsnoc.
Qed.

Lemma decode_run_encode (h : list N) :
  Forall (fun c => 0x80 <= c) h -> forallb is_scalar h = true ->
  decode_run (encode h) = h.
Proof.
  induction h as [|c h IH]; [done|]. cbn [encode forallb].
  intros [? ?]%Forall_cons [? ?]%andb_true_iff.
  rewrite decode_run_encode_char by done. by rewrite IH.
Qed.

Lemma decode_from_encode (l h : list N) :
  forallb is_scalar l = true ->
  Forall (fun c => 0x80 <= c) h -> forallb is_scalar h = true ->
  decode_from (encode h) (encode l) = h ++ l.
Proof.
  revert h. induction l as [|c l IH]; intros h Hl Hh Hs.
  - rewrite app_nil_r. by apply decode_run_encode.
  - cbn [forallb] in Hl. apply andb_true_iff in Hl as [Hc Hl].
    cbn [encode]. destruct (N.ltb_spec c 0x80) as [Hlt|Hge].
    + unfold encode_char. rewrite (proj2 (N.ltb_lt _ _) Hlt).
      rewrite str_app_cons, str_app_nil_l. cbn [decode_from].
      rewrite byte_of_N by lia. rewrite (proj2 (N.ltb_lt _ _) Hlt).
      rewrite decode_run_encode by done.
      by rewrite (IH [] Hl (Forall_nil_2 _) eq_refl : decode_from "" _ = _).
    + rewrite decode_from_encode_char by done.
      replace (encode h +:+ encode_char c) with (encode (h ++ [c]))
        by (rewrite encode_app; cbn [encode]; by rewrite str_app_nil_r).
      rewrite IH; [by rewrite <- app_assoc | done | |].
      * apply Forall_app. split; [done|]. by apply Forall_singleton.
      * rewrite forallb_app, Hs. simpl. by rewrite Hc.
Qed.

(** A string of Python is read back from its bytes. *)
Lemma decode_encode (l : list N) :
  forallb is_scalar l = true -> decode (encode l) = l.
Proof.
  intros H. by apply (decode_from_encode l []).
Qed.

Lemma well_formed_encode (l : list N) :
  forallb is_scalar l = true -> well_formed (encode l).
Proof. intros H. unfold well_formed. by rewrite decode_encode. Qed.

Local Close Scope N_scope.

(* ===================================================================== *)
(** ** Facts about the descending stable sort *)
(* ===================================================================== *)

Section SortedFacts.
Context {A : Type} (key : A -> Z).

Lemma insert_desc_perm (x : A) (l : list A) :
  Permutation (insert_desc key x l) (x :: l).
Proof.
  induction l as [|y l IH]; simpl; [done|].
  destruct (key y <=? key x); [done|].
  rewrite IH. apply perm_swap.
Qed.

Lemma sorted_reverse_perm (l : list A) :
  Permutation (sorted_reverse key l) l.
Proof.
  induction l as [|x l IH]; simpl; [done|].
  by rewrite insert_desc_perm, IH.
Qed.

Lemma insert_desc_descending (x : A) (l : list A) :
  descending key l -> descending key (insert_desc key x l).
Proof.
  unfold descending. induction l as [|y l IH]; simpl; intros Hl.
  - apply SSorted_cons; [done | by apply Forall_nil].
  - apply StronglySorted_inv in Hl as [Hl Hy].
    destruct (Z.leb_spec (key y) (key x)) as [Hle | Hgt].
    + apply SSorted_cons; [by apply SSorted_cons|].
      apply Forall_cons. split; [done|].
      eapply Forall_impl; [exact Hy|]. simpl. lia.
    + apply SSorted_cons; [by apply IH|].
      rewrite insert_desc_perm. apply Forall_cons. split; [lia | done].
Qed.

Lemma sorted_reverse_descending (l : list A) :
  descending key (sorted_reverse key l).
Proof.
  induction l as [|x l IH]; simpl.
  - apply SSorted_nil.
  - by apply insert_desc_descending.
Qed.

(** An insertion only passes elements of strictly larger key, so within
    one key nothing changes place. *)
Lemma insert_desc_filter (k : Z) (x : A) (l : list A) :
  filter (fun a => key a = k) (insert_desc key x l)
  = filter (fun a => key a = k) (x :: l).
Proof.
  induction l as [|y l IH]; simpl; [done|].
  destruct (Z.leb_spec (key y) (key x)) as [Hle | Hgt]; [done|].
  rewrite (filter_cons _ y), IH, !(filter_cons _ x), (filter_cons _ y).
  repeat case_decide; try done; lia.
Qed.

Lemma sorted_reverse_stable (l : list A) :
  same_order_within_keys key l (sorted_reverse key l).
Proof.
  intros k. induction l as [|x l IH]; simpl; [done|].
  by rewrite insert_desc_filter, !filter_cons, IH.
Qed.

(** There is one stable descending arrangement of a list: whatever
    algorithm [sorted] runs, its result is the one of [sorted_reverse]. *)
Lemma stable_descending_unique (l1 l2 : list A) :
  descending key l1 -> descending key l2 ->
  same_order_within_keys key l1 l2 -> l1 = l2.
Proof.
  unfold descending, same_order_within_keys.
  revert l2. induction l1 as [|x l1 IH]; intros l2 H1 H2 Hf.
  - destruct l2 as [|y l2]; [done|].
    specialize (Hf (key y)). by rewrite filter_cons_True in Hf.
  - destruct l2 as [|y l2].
    { specialize (Hf (key x)). by rewrite (filter_cons_True _ x) in Hf. }
    apply StronglySorted_inv in H1 as [H1 Hx].
    apply StronglySorted_inv in H2 as [H2 Hy].
    rewrite Forall_forall in Hx, Hy.
    assert (key y <= key x) as Hyx.
    { assert (y ∈ x :: l1) as [-> | Hin]%elem_of_cons; [|lia|by apply Hx].
      assert (y ∈ filter (fun a => key a = key y) (x :: l1)) as Hin;
        [|by apply list_elem_of_filter in Hin as [_ ?]].
      rewrite <- Hf, filter_cons_True by done. apply elem_of_cons; auto. }
    assert (key x <= key y) as Hxy.
    { assert (x ∈ y :: l2) as [-> | Hin]%elem_of_cons; [|lia|by apply Hy].
      assert (x ∈ filter (fun a => key a = key x) (y :: l2)) as Hin;
        [|by apply list_elem_of_filter in Hin as [_ ?]].
      rewrite Hf, filter_cons_True by done. apply elem_of_cons; auto. }
    assert (x = y) as <-.
    { specialize (Hf (key x)).
      rewrite !filter_cons_True in Hf by lia. by injection Hf. }
    f_equal. apply IH; [done..|]. intros k. specialize (Hf k).
    rewrite !filter_cons in Hf. case_decide; [by injection Hf | done].
Qed.

Lemma sorted_reverse_unique (l l' : list A) :
  descending key l' -> same_order_within_keys key l l' ->
  l' = sorted_reverse key l.
Proof.
  intros Hd Hs. symmetry.
  apply stable_descending_unique;
    [apply sorted_reverse_descending | done |].
  intros k. by rewrite Hs, sorted_reverse_stable.
Qed.

End SortedFacts.

(* ===================================================================== *)
(** ** What the script does, step by step *)
(* ===================================================================== *)

Lemma extend_nil (w : World) : extend w [] [] = w.
Proof. destruct w. unfold extend. simpl. by rewrite !app_nil_r. Qed.

Lemma extend_extend (w : World) (ps ps' : list Payload)
    (rs rs' : list LogRecord) :
  extend (extend w ps rs) ps' rs' = extend w (ps ++ ps') (rs ++ rs').
Proof. unfold extend. simpl. by rewrite <- !app_assoc. Qed.

Lemma logging_spec (lvl : Level) (msg : string) (w : World) :
  logging lvl msg w = Returns tt (extend w [] [(lvl, msg)]).
Proof. unfold logging, add_log, extend. by rewrite app_nil_r. Qed.

(** One call of the notifier: the payload is posted, an ERROR record is
    written when the status is not 200, and [None] is returned. *)
Lemma send_to_slack_blockkit_spec (env : Env) (blocks : list Block)
    (thread_ts : option string) (w : World) :
  let p := make_payload blocks thread_ts in
  send_to_slack_blockkit env blocks thread_ts w
  = Returns None (extend w [p] (webhook_error env (length (posts w)) p)).
Proof.
  unfold send_to_slack_blockkit, bind, requests_post, webhook_error. simpl.
  destruct (_ =? 200); simpl; unfold extend, add_post; simpl;
    by rewrite ?app_nil_r.
Qed.

(** Where the loop calls the formatter the key is there, so it returns. *)
Lemma format_tweet_blockkit_spec (tweet : Tweet.t) (user : User.t) (w : World) :
  20 <= followers_of user ->
  format_tweet_blockkit tweet user w
  = Returns (tweet_blocks tweet user (followers_of user)) w.
Proof.
  unfold format_tweet_blockkit, followers_of, bind.
  by destruct (User.public_metrics user !! "followers_count").
Qed.

Lemma loop_body_spec (cfg : KeywordConfig) (env : Env)
    (user_dict : gmap Z User.t) (thread_ts : option string)
    (tweet : Tweet.t) (w : World) :
  loop_body cfg env user_dict thread_ts tweet w
  = Returns tt (extend w (body_posts cfg user_dict thread_ts tweet)
                         (body_log cfg env user_dict thread_ts
                                   (length (posts w)) tweet)).
Proof.
  unfold loop_body, body_posts, body_log, accepted.
  destruct (user_dict !! Tweet.author_id tweet) as [user|];
    [|by rewrite extend_nil].
  destruct (has_spam_token cfg _); [apply logging_spec|].
  destruct (str_in "ransomware" _); [apply logging_spec|].
  destruct (Z.ltb_spec (followers_of user) 20) as [Hlt | Hge];
    [apply logging_spec|].
  destruct (has_keyword cfg _); [|by rewrite extend_nil].
  unfold bind. rewrite format_tweet_blockkit_spec, logging_spec by done.
  rewrite send_to_slack_blockkit_spec. unfold ret.
  rewrite extend_extend. simpl. by rewrite app_nil_r.
Qed.

Lemma item_payloads_cons (cfg : KeywordConfig) (user_dict : gmap Z User.t)
    (thread_ts : option string) (tweet : Tweet.t) (tweets : list Tweet.t) :
  item_payloads cfg user_dict thread_ts (tweet :: tweets)
  = body_posts cfg user_dict thread_ts tweet
      ++ item_payloads cfg user_dict thread_ts tweets.
Proof.
  unfold item_payloads, body_posts. simpl.
  by destruct (accepted cfg user_dict tweet).
Qed.

Lemma for_each_loop_body_spec (cfg : KeywordConfig) (env : Env)
    (user_dict : gmap Z User.t) (thread_ts : option string)
    (tweets : list Tweet.t) (w : World) :
  for_each tweets (loop_body cfg env user_dict thread_ts) w
  = Returns tt (extend w (item_payloads cfg user_dict thread_ts tweets)
                         (loop_log cfg env user_dict thread_ts
                                   (length (posts w)) tweets)).
Proof.
  revert w. induction tweets as [|tweet tweets IH]; intros w.
  - simpl. unfold ret. by rewrite extend_nil.
  - cbn [for_each loop_log]. unfold bind.
    rewrite loop_body_spec, IH, extend_extend, item_payloads_cons.
    simpl. by rewrite List.length_app.
Qed.

(** The search call is the first effect of every run. *)
Lemma run_unfold (cfg : KeywordConfig) (env : Env) :
  run cfg env
  = let w := add_search (query cfg, clock_one_day_ago env) empty_world in
    match search_recent_tweets env (query cfg) (clock_one_day_ago env) with
    | RaisesConnectionError e =>
        logging ERROR ("Twitter API connection error: " +:+ e) w
    | RaisesException e =>
        logging ERROR ("Unexpected error during Twitter API call: " +:+ e) w
    | ReturnsResponse tweets =>
        if truthy_list (data tweets) then
          (do users <- getitem (includes_users tweets) "users";
           do thread_ts <- send_to_slack_blockkit env (header_block env) None;
           for_each (sorted_tweets (default [] (data tweets)))
                    (loop_body cfg env (make_user_dict users) thread_ts)) w
        else logging INFO "No tweets found in the past 24 hours." w
    end.
Proof.
  unfold run, search_and_notify, bind, client_search_recent_tweets. simpl.
  destruct (search_recent_tweets env _ _) as [e|e|r]; [done..|].
  by destruct (truthy_list (data r)).
Qed.

(** A run that found posts and their authors: it returns, having posted
    the header and then the accepted posts, none of them threaded. *)
Lemma run_found (cfg : KeywordConfig) (env : Env) (r : SearchResponse)
    (tweets : list Tweet.t) (users : list User.t) :
  search_recent_tweets env (query cfg) (clock_one_day_ago env)
    = ReturnsResponse r ->
  data r = Some tweets -> tweets <> [] -> includes_users r = Some users ->
  let user_dict := make_user_dict users in
  run cfg env
  = Returns tt
      {| searches := [(query cfg, clock_one_day_ago env)];
         posts := header_payload env
                    :: item_payloads cfg user_dict None (sorted_tweets tweets);
         log := webhook_error env 0 (header_payload env)
                  ++ loop_log cfg env user_dict None 1 (sorted_tweets tweets) |}.
Proof.
  intros Hs Hd Hne Hu. rewrite run_unfold, Hs, Hd, Hu. simpl.
  destruct tweets as [|t tweets]; [done|]. cbn [truthy_list].
  unfold bind, getitem, ret.
  rewrite send_to_slack_blockkit_spec, for_each_loop_body_spec.
  by rewrite extend_extend.
Qed.

(** A run whose response has posts but no users stops at
    [tweets.includes["users"]], before anything is posted. *)
Lemma run_no_users (cfg : KeywordConfig) (env : Env) (r : SearchResponse) :
  search_recent_tweets env (query cfg) (clock_one_day_ago env)
    = ReturnsResponse r ->
  truthy_list (data r) = true -> includes_users r = None ->
  run cfg env
  = Raises (KeyError "users")
           {| searches := [(query cfg, clock_one_day_ago env)];
              posts := []; log := [] |}.
Proof. intros Hs Hd Hu. by rewrite run_unfold, Hs, Hd, Hu. Qed.

Lemma run_searches (cfg : KeywordConfig) (env : Env) :
  searches (final (run cfg env)) = [(query cfg, clock_one_day_ago env)].
Proof.
  rewrite run_unfold. simpl.
  search_cases r users.
  unfold bind, getitem, ret.
  by rewrite send_to_slack_blockkit_spec, for_each_loop_body_spec.
Qed.

(** The ERROR records of the loop are those of the failed item posts. *)
Lemma filter_webhook_error (env : Env) (n : nat) (p : Payload) :
  List.filter is_error (webhook_error env n p) = webhook_error env n p.
Proof. unfold webhook_error. simpl. by destruct (_ =? 200). Qed.

Lemma webhook_errors_app (env : Env) (n : nat) (ps ps' : list Payload) :
  webhook_errors env n (ps ++ ps')
  = webhook_errors env n ps ++ webhook_errors env (n + length ps) ps'.
Proof.
  revert n. induction ps as [|p ps IH]; intros n; simpl.
  - by rewrite Nat.add_0_r.
  - by rewrite IH, <- app_assoc, Nat.add_succ_r.
Qed.

Lemma body_log_errors (cfg : KeywordConfig) (env : Env)
    (user_dict : gmap Z User.t) (thread_ts : option string) (n : nat)
    (tweet : Tweet.t) :
  List.filter is_error (body_log cfg env user_dict thread_ts n tweet)
  = webhook_errors env n (body_posts cfg user_dict thread_ts tweet).
Proof.
  unfold body_log, body_posts, accepted.
  destruct (user_dict !! Tweet.author_id tweet) as [user|]; [|done].
  destruct (has_spam_token cfg _); [done|].
  destruct (str_in "ransomware" _); [done|].
  destruct (followers_of user <? 20); [done|].
  destruct (has_keyword cfg _); [|done].
  simpl. by rewrite filter_webhook_error, app_nil_r.
Qed.

Lemma loop_log_errors (cfg : KeywordConfig) (env : Env)
    (user_dict : gmap Z User.t) (thread_ts : option string) (n : nat)
    (tweets : list Tweet.t) :
  List.filter is_error (loop_log cfg env user_dict thread_ts n tweets)
  = webhook_errors env n (item_payloads cfg user_dict thread_ts tweets).
Proof.
  revert n. induction tweets as [|tweet tweets IH]; intros n; [done|].
  cbn [loop_log]. rewrite List.filter_app, body_log_errors, IH.
  by rewrite item_payloads_cons, webhook_errors_app.
Qed.

(** No payload ever carries a thread reference: the notifier returns
    [None], and [None] is what the loop passes on. *)
Lemma item_payloads_unthreaded (cfg : KeywordConfig)
    (user_dict : gmap Z User.t) (tweets : list Tweet.t) :
  Forall (fun p => payload_thread_ts p = None)
         (item_payloads cfg user_dict None tweets).
Proof.
  induction tweets as [|tweet tweets IH]; [by apply Forall_nil|].
  rewrite item_payloads_cons. apply Forall_app. split; [|done].
  unfold body_posts. destruct (accepted cfg user_dict tweet); [|done].
  by apply Forall_cons.
Qed.

Lemma run_posts (cfg : KeywordConfig) (env : Env) :
  posts (final (run cfg env)) = expected_posts cfg env.
Proof.
  rewrite run_unfold. unfold expected_posts. simpl.
  search_cases r users.
  unfold bind, getitem, ret.
  by rewrite send_to_slack_blockkit_spec, for_each_loop_body_spec.
Qed.

(** Whether a run returns is settled by the answer of the search alone. *)
Lemma run_returns (cfg : KeywordConfig) (env : Env) :
  returns_normally (run cfg env) <->
  match search_recent_tweets env (query cfg) (clock_one_day_ago env) with
  | ReturnsResponse r =>
      truthy_list (data r) = true -> is_Some (includes_users r)
  | _ => True
  end.
Proof.
  rewrite run_unfold. simpl.
  destruct (search_recent_tweets env _ _) as [e|e|r]; [done..|].
  destruct (truthy_list (data r)); [|done].
  destruct (includes_users r) as [users|]; simpl.
  - unfold bind, getitem, ret.
    rewrite send_to_slack_blockkit_spec, for_each_loop_body_spec.
    split; [by eauto | done].
  - split; [done|]. intros H. by destruct (H eq_refl).
Qed.

Lemma run_posts_unthreaded (cfg : KeywordConfig) (env : Env) :
  Forall (fun p => payload_thread_ts p = None) (posts (final (run cfg env))).
Proof.
  rewrite run_posts. unfold expected_posts.
  search_cases r users.
  apply Forall_cons. split; [done|]. apply item_payloads_unthreaded.
Qed.

(* ===================================================================== *)
(** ** The notifier and its thread (C1) *)
(* ===================================================================== *)

(** C1, evaluated on the end-to-end scenario (one accepted post, a header
    post answered with 200): the notifier returns [None], as it does from
    every call, two payloads go out, and the second one, the item message,
    has no thread reference.  The thread identifier of the header is never
    captured, so the item is not posted as a reply under it. *)
Theorem C1_item_post_has_no_thread_reference :
  (forall env blocks thread_ts w,
     exists w', send_to_slack_blockkit env blocks thread_ts w = Returns None w')
  /\ send_to_slack_blockkit scenario_env (header_block scenario_env) None
                            empty_world
     = Returns None (extend empty_world [header_payload scenario_env] [])
  /\ posts (final (run scenario_config scenario_env))
     = [ header_payload scenario_env;
         item_payload None scenario_tweet scenario_user ]
  /\ payload_thread_ts (item_payload None scenario_tweet scenario_user) = None.
Proof.
  split; [|split; [|split]].
  - intros env blocks thread_ts w. rewrite send_to_slack_blockkit_spec. eauto.
  - by rewrite send_to_slack_blockkit_spec.
  - rewrite run_posts. reflexivity.
  - reflexivity.
Qed.

(* ===================================================================== *)
(** ** The query builder on an empty configuration (C2) *)
(* ===================================================================== *)

(** C2 as stated does not hold: with no primary and no product keyword the
    run does not fail before the search. *)
Lemma C2_run_does_not_fail_fast :
  ~ fails_fast (run empty_config refusing_env).
Proof.
  intros (e & w & Hrun & Hsearches).
  assert (searches (final (run empty_config refusing_env)) = []) as H
    by by rewrite Hrun.
  by rewrite run_searches in H.
Qed.

(** C2, amended: with both keyword lists empty the query builder checks
    nothing; it builds the query with the empty OR-clause, and the run
    issues exactly one search, with that query. *)
Theorem C2_empty_keywords_degenerate_query (cfg : KeywordConfig) (env : Env) :
  PRIMARY_KEYWORDS cfg = [] -> PRODUCT cfg = [] ->
  query cfg = "() -is:retweet -is:reply lang:en"
  /\ searches (final (run cfg env))
     = [("() -is:retweet -is:reply lang:en", clock_one_day_ago env)].
Proof.
  intros Hp Hq.
  assert (query cfg = "() -is:retweet -is:reply lang:en") as Hquery.
  { unfold query, keyword_clauses. by rewrite Hp, Hq. }
  split; [done|]. by rewrite run_searches, Hquery.
Qed.

Lemma C2_empty_keywords_witness :
  query empty_config = "() -is:retweet -is:reply lang:en"
  /\ searches (final (run empty_config refusing_env))
     = [("() -is:retweet -is:reply lang:en",
         clock_one_day_ago refusing_env)].
Proof.
  apply (C2_empty_keywords_degenerate_query empty_config refusing_env);
    reflexivity.
Defined.

(* ===================================================================== *)
(** ** Failed webhook calls (C3) *)
(* ===================================================================== *)

(** C3 as stated does not hold: a header post answered with 204, a 2xx
    status, is logged as an error. *)
Lemma C3_success_204_is_logged :
  ~ logs_iff_not_2xx moody_env (header_block moody_env) None empty_world.
Proof.
  unfold logs_iff_not_2xx. rewrite send_to_slack_blockkit_spec.
  intros [Hlogged _].
  assert (is_success 204 = false) as Hfalse; [|done].
  apply Hlogged. simpl. discriminate.
Qed.

Lemma run_webhook_independent (cfg : KeywordConfig) (env : Env)
    (wh : nat -> Payload -> Response.t) :
  posts (final (run cfg (with_webhook env wh))) = posts (final (run cfg env))
  /\ (returns_normally (run cfg (with_webhook env wh))
      <-> returns_normally (run cfg env)).
Proof. by rewrite !run_posts, !run_returns. Qed.

Lemma run_error_records (cfg : KeywordConfig) (env : Env) (r : SearchResponse) :
  search_recent_tweets env (query cfg) (clock_one_day_ago env)
    = ReturnsResponse r ->
  List.filter is_error (log (final (run cfg env)))
  = webhook_errors env 0 (posts (final (run cfg env))).
Proof.
  intros Hs. rewrite run_posts. unfold expected_posts.
  rewrite run_unfold, Hs. simpl.
  destruct (truthy_list (data r)); [|done].
  destruct (includes_users r) as [users|]; [|done].
  unfold bind, getitem, ret.
  rewrite send_to_slack_blockkit_spec, for_each_loop_body_spec. simpl.
  by rewrite List.filter_app, filter_webhook_error, loop_log_errors.
Qed.

(** C3, amended: the notifier logs an error, with status and body, exactly
    when the status of the answer is not 200 (a 2xx other than 200 is
    logged too).  Whatever the webhook answers, the same payloads are
    posted, each once, and the run ends the same way; the ERROR records of
    the run are those of the calls answered with a status other than 200. *)
Theorem C3_webhook_errors_logged_run_continues (cfg : KeywordConfig)
    (env : Env) (r : SearchResponse) :
  search_recent_tweets env (query cfg) (clock_one_day_ago env)
    = ReturnsResponse r ->
  (forall blocks thread_ts w,
     let p := make_payload blocks thread_ts in
     let response := webhook env (length (posts w)) p in
     send_to_slack_blockkit env blocks thread_ts w
     = Returns None
         (extend w [p]
            (if Response.status_code response =? 200 then []
             else [(ERROR, "Slack webhook error: "
                             +:+ pretty (Response.status_code response)
                             +:+ " " +:+ Response.text response)])))
  /\ (forall wh,
        posts (final (run cfg (with_webhook env wh))) = posts (final (run cfg env))
        /\ (returns_normally (run cfg (with_webhook env wh))
            <-> returns_normally (run cfg env)))
  /\ posts (final (run cfg env)) = expected_posts cfg env
  /\ List.filter is_error (log (final (run cfg env)))
     = webhook_errors env 0 (posts (final (run cfg env))).
Proof.
  intros Hs. split; [|split; [|split]].
  - intros blocks thread_ts w. apply send_to_slack_blockkit_spec.
  - intros wh. apply run_webhook_independent.
  - apply run_posts.
  - by apply (run_error_records cfg env r).
Qed.

Lemma C3_webhook_errors_witness :
  posts (final (run scenario_config moody_env))
    = [ header_payload moody_env;
        item_payload None scenario_tweet scenario_user;
        item_payload None (mk_tweet 1002 7 "cargo build" 3) scenario_user ]
  /\ List.filter is_error (log (final (run scenario_config moody_env)))
     = [ (ERROR, "Slack webhook error: 204 ");
         (ERROR, "Slack webhook error: 500 server_error");
         (ERROR, "Slack webhook error: 500 server_error") ].
Proof.
  destruct (C3_webhook_errors_logged_run_continues scenario_config moody_env
              {| data := Some [scenario_tweet; mk_tweet 1002 7 "cargo build" 3];
                 includes_users := Some [scenario_user] |} eq_refl)
    as (_ & _ & Hposts & Herrors).
  split.
  - rewrite Hposts. reflexivity.
  - rewrite Herrors, Hposts. reflexivity.
Defined.

(* ===================================================================== *)
(** ** A search that raises or finds nothing (C4) *)
(* ===================================================================== *)

(** C4: when the search call raises (a connection error or any other
    exception) or returns no post, the run makes no webhook call at all,
    writes one log record (the error, or the line that no tweet was found)
    and returns. *)
Theorem C4_no_notification_without_posts (cfg : KeywordConfig) (env : Env) :
  let outcome :=
    search_recent_tweets env (query cfg) (clock_one_day_ago env) in
  raised_or_empty outcome ->
  run cfg env
  = Returns tt {| searches := [(query cfg, clock_one_day_ago env)];
                  posts := [];
                  log := [sole_record outcome] |}.
Proof.
  intros outcome H. rewrite run_unfold. fold outcome.
  destruct outcome as [e|e|r]; simpl in *; [done..|]. by rewrite H.
Qed.

Lemma C4_search_raises_witness :
  run empty_config refusing_env
  = Returns tt
      {| searches := [(query empty_config, clock_one_day_ago refusing_env)];
         posts := [];
         log := [(ERROR, "Unexpected error during Twitter API call: "
                           +:+ "400 Bad Request")] |}.
Proof.
  apply (C4_no_notification_without_posts empty_config refusing_env).
  exact I.
Defined.

(** The two other ways into C4: a connection error, and no result. *)
Example no_results_run :
  run scenario_config no_results_env
  = Returns tt
      {| searches := [(query scenario_config, clock_one_day_ago no_results_env)];
         posts := [];
         log := [(INFO, "No tweets found in the past 24 hours.")] |}.
Proof. reflexivity. Qed.

Example empty_data_run :
  posts (final (run scenario_config (mk_env (found [] []) ok_webhook))) = []
  /\ log (final (run scenario_config (mk_env (found [] []) ok_webhook)))
     = [(INFO, "No tweets found in the past 24 hours.")].
Proof. by split. Qed.

Example connection_error_run :
  let env := mk_env (RaisesConnectionError "Connection aborted.") ok_webhook in
  posts (final (run scenario_config env)) = []
  /\ log (final (run scenario_config env))
     = [(ERROR, "Twitter API connection error: Connection aborted.")].
Proof. by split. Qed.

(* ===================================================================== *)
(** ** Ranking (C5) *)
(* ===================================================================== *)

Lemma impression_count_missing (t : Tweet.t) :
  Tweet.public_metrics t !! "impression_count" = None ->
  impression_count t = 0.
Proof. unfold impression_count. by intros ->. Qed.

(** C5: the fetched posts are sorted by impression count, largest first,
    a missing count being 0, and posts of equal count keep the order they
    came in; the first 100 of them are kept; and the item messages go out
    in that order, as the accepted ones among them, with no second sort.
    On the counts 5, 20, 3, 20 the order is: both 20s (the earlier one
    first), then 5, then 3. *)
Theorem C5_ranked_by_impressions_stable (cfg : KeywordConfig) (env : Env)
    (r : SearchResponse) (tweets : list Tweet.t) (users : list User.t) :
  search_recent_tweets env (query cfg) (clock_one_day_ago env)
    = ReturnsResponse r ->
  data r = Some tweets -> tweets <> [] -> includes_users r = Some users ->
  let ranked := sorted_reverse impression_count tweets in
  Permutation ranked tweets
  /\ descending impression_count ranked
  /\ same_order_within_keys impression_count tweets ranked
  /\ (forall t, Tweet.public_metrics t !! "impression_count" = None ->
                impression_count t = 0)
  /\ sorted_tweets tweets = take 100 ranked
  /\ (length (sorted_tweets tweets) <= 100)%nat
  /\ posts (final (run cfg env))
     = header_payload env
         :: omap (fun tweet =>
                    item_payload None tweet
                      <$> accepted cfg (make_user_dict users) tweet)
                 (sorted_tweets tweets)
  /\ map impression_count four_tweets = [5; 20; 3; 20]
  /\ map Tweet.id four_tweets = [1; 2; 3; 4]
  /\ map Tweet.id (sorted_tweets four_tweets) = [2; 4; 1; 3].
Proof.
  intros Hs Hd Hne Hu ranked. repeat split.
  - apply sorted_reverse_perm.
  - apply sorted_reverse_descending.
  - apply sorted_reverse_stable.
  - apply impression_count_missing.
  - unfold sorted_tweets. rewrite length_take. lia.
  - by rewrite (run_found cfg env r tweets users).
Qed.

Lemma C5_ranked_witness :
  map Tweet.id (sorted_tweets four_tweets) = [2; 4; 1; 3]
  /\ posts (final (run scenario_config four_env))
     = header_payload four_env
         :: map (fun tweet => item_payload None tweet scenario_user)
                [ mk_tweet 2 7 "rust b" 20; mk_tweet 4 7 "rust d" 20;
                  mk_tweet 1 7 "rust a" 5; mk_tweet 3 7 "rust c" 3 ].
Proof.
  destruct (C5_ranked_by_impressions_stable scenario_config four_env
              {| data := Some four_tweets;
                 includes_users := Some [scenario_user] |}
              four_tweets [scenario_user] eq_refl eq_refl
              ltac:(discriminate) eq_refl)
    as (_ & _ & _ & _ & _ & _ & Hposts & _ & _ & Hids).
  split; [exact Hids|]. rewrite Hposts. reflexivity.
Defined.

(* ===================================================================== *)
(** ** The filters of the loop (C6, C7, C8, C10) *)
(* ===================================================================== *)

Lemma loop_body_posts (cfg : KeywordConfig) (env : Env)
    (user_dict : gmap Z User.t) (thread_ts : option string)
    (tweet : Tweet.t) (w : World) :
  posts (final (loop_body cfg env user_dict thread_ts tweet w))
  = posts w ++ body_posts cfg user_dict thread_ts tweet.
Proof. by rewrite loop_body_spec. Qed.

(** A tweet that is not accepted adds no payload. *)
Lemma rejected_no_post (cfg : KeywordConfig) (env : Env)
    (user_dict : gmap Z User.t) (thread_ts : option string)
    (tweet : Tweet.t) (w : World) :
  accepted cfg user_dict tweet = None ->
  posts (final (loop_body cfg env user_dict thread_ts tweet w)) = posts w.
Proof.
  intros H. rewrite loop_body_posts. unfold body_posts.
  by rewrite H, app_nil_r.
Qed.

Lemma has_spam_token_empty (cfg : KeywordConfig) (text : string) :
  SERVICE cfg = [] -> has_spam_token cfg text = false.
Proof. unfold has_spam_token. by intros ->. Qed.


Lemma has_keyword_spec (cfg : KeywordConfig) (text : string) :
  has_keyword cfg text = true <->
  exists kw, kw ∈ PRIMARY_KEYWORDS cfg ++ PRODUCT cfg
             /\ substring_of kw text.
Proof.
  unfold has_keyword. rewrite existsb_exists.
  split; intros (kw & Hin & H); exists kw.
  - apply list_elem_of_In in Hin. by apply str_in_spec in H.
  - apply list_elem_of_In in Hin. by apply str_in_spec in H.
Qed.

(** An ASCII word that occurs in a text occurs lowered in the lowered
    text, whatever the other characters of the text are. *)
Lemma lower_substring_ascii (word text : string) :
  is_ascii word = true -> substring_of word text ->
  substring_of (ascii_lower word) (lower text).
Proof.
  intros Hw (a & b & ->).
  destruct (decide (word = "")) as [->|Hne].
  { by exists "", (lower (a +:+ "" +:+ b)). }
  unfold lower. rewrite decode_around_ascii by done.
  destruct (lower_from_around_ascii [] (decode a) (codes word) (decode b))
    as (x' & y' & ->); [by apply codes_ascii|].
  rewrite !encode_app, encode_map_ascii_lower by done.
  by exists (encode x'), (encode y').
Qed.

(** Any casing of the word in the text is found by the check on the
    lowered text. *)
Lemma ransomware_found (word text : string) :
  casing_of_ransomware word -> substring_of word text ->
  str_in "ransomware" (lower text) = true.
Proof.
  intros Hw Hin. apply str_in_spec.
  unfold casing_of_ransomware, lower in Hw.
  apply encode_ascii_inv in Hw; [|done].
  apply lower_from_ascii_inv in Hw as [Hall Hmap].
  - destruct (decode_all_ascii word Hall) as [Hascii Hcodes].
    replace "ransomware" with (ascii_lower word);
      [by apply lower_substring_ascii|].
    rewrite <- encode_map_ascii_lower, <- Hcodes, <- Hmap by done.
    by apply encode_codes.
  - by apply codes_ascii.
  - intros H. vm_compute in H.
    repeat (apply elem_of_cons in H as [H|H]; [done|]).
    by apply elem_of_nil in H.
Qed.



(** C6: a post whose text has the word "ransomware" in it, in any casing,
    is not posted.  The rule is one of its own: with an empty list of
    service keywords the post of a known author is dropped by this very
    check, with its own log line.  "RANSOMWARE" and "RansomWare" are such
    casings. *)
Theorem C6_ransomware_rejected (cfg : KeywordConfig) (env : Env)
    (user_dict : gmap Z User.t) (thread_ts : option string)
    (tweet : Tweet.t) (w : World) (word : string) :
  casing_of_ransomware word ->
  substring_of word (tweet_text tweet) ->
  accepted cfg user_dict tweet = None
  /\ posts (final (loop_body cfg env user_dict thread_ts tweet w)) = posts w
  /\ (forall user,
        user_dict !! Tweet.author_id tweet = Some user ->
        SERVICE cfg = [] ->
        loop_body cfg env user_dict thread_ts tweet w
        = logging INFO (ransomware_message (tweet_url tweet user)) w)
  /\ casing_of_ransomware "RANSOMWARE"
  /\ casing_of_ransomware "RansomWare".
Proof.
  intros Hw Hin. pose proof (ransomware_found _ _ Hw Hin) as Hr.
  assert (accepted cfg user_dict tweet = None) as Hacc.
  { unfold accepted. rewrite Hr.
    destruct (user_dict !! _); [|done]. by destruct (has_spam_token cfg _). }
  split; [done|]. split; [by apply rejected_no_post|].
  split; [|by split].
  intros user Hu Hs. unfold loop_body.
  by rewrite Hu, has_spam_token_empty, Hr.
Qed.

Lemma C6_ransomware_witness :
  accepted empty_config (make_user_dict [scenario_user])
           (mk_tweet 5 7 "New RansomWare strain hits rust shops" 900) = None
  /\ casing_of_ransomware "RansomWare".
Proof.
  destruct (C6_ransomware_rejected empty_config scenario_env
              (make_user_dict [scenario_user]) None
              (mk_tweet 5 7 "New RansomWare strain hits rust shops" 900)
              empty_world "RansomWare" eq_refl)
    as (Hacc & _ & _ & _ & Hcasing).
  - by exists "New ", " strain hits rust shops".
  - by split.
Defined.






(** C10: for an author whose public metrics have no [followers_count] the
    count is taken to be 0, so the post is not posted; when it reaches the
    follower filter (no spam token, no "ransomware") it is that filter
    which drops it, with 0 in its log line. *)
Theorem C10_missing_followers_count_is_zero (cfg : KeywordConfig) (env : Env)
    (user_dict : gmap Z User.t) (thread_ts : option string)
    (tweet : Tweet.t) (user : User.t) (w : World) :
  user_dict !! Tweet.author_id tweet = Some user ->
  User.public_metrics user !! "followers_count" = None ->
  followers_of user = 0
  /\ accepted cfg user_dict tweet = None
  /\ posts (final (loop_body cfg env user_dict thread_ts tweet w)) = posts w
  /\ (has_spam_token cfg (tweet_text tweet) = false ->
      str_in "ransomware" (lower (tweet_text tweet)) = false ->
      loop_body cfg env user_dict thread_ts tweet w
      = logging INFO (low_followers_message 0 (tweet_url tweet user)) w).
Proof.
  intros Hu Hm.
  assert (followers_of user = 0) as Hf by (unfold followers_of; by rewrite Hm).
  assert (accepted cfg user_dict tweet = None) as Hacc.
  { unfold accepted. rewrite Hu, Hf.
    destruct (has_spam_token cfg _); [done|].
    by destruct (str_in "ransomware" _). }
  split; [done|]. split; [done|]. split; [by apply rejected_no_post|].
  intros Hspam Hr. unfold loop_body. by rewrite Hu, Hspam, Hr, Hf.
Qed.

Lemma C10_missing_followers_count_witness :
  followers_of (user_without_followers 7 "bob") = 0
  /\ loop_body scenario_config scenario_env
               (make_user_dict [user_without_followers 7 "bob"]) None
               scenario_tweet empty_world
     = logging INFO
         "Tweet skipped due to low follower count (0): https://twitter.com/bob/status/1001"
         empty_world.
Proof.
  destruct (C10_missing_followers_count_is_zero scenario_config scenario_env
              (make_user_dict [user_without_followers 7 "bob"]) None
              scenario_tweet (user_without_followers 7 "bob") empty_world
              eq_refl eq_refl)
    as (Hf & _ & _ & Hlog).
  split; [exact Hf|]. by rewrite Hlog.
Defined.

(* ===================================================================== *)
(** ** Cleaning the text (C9) *)
(* ===================================================================== *)

Lemma forallb_true_Forall {A} (f : A -> bool) (l : list A) :
  forallb f l = true <-> Forall (fun x => f x = true) l.
Proof.
  induction l as [|x l IH]; simpl.
  - split; [by intros; apply Forall_nil | done].
  - rewrite andb_true_iff, Forall_cons, IH. done.
Qed.

(** On the encoding of a Python string the functions on strings do what
    the functions on characters do. *)
Lemma decode_strip_links (text : string) :
  well_formed text ->
  decode (strip_links text) = strip_links_chars (decode text).
Proof.
  intros H. unfold strip_links. apply decode_encode.
  by apply forallb_true_Forall, re_sub_url_Forall, forallb_true_Forall.
Qed.

Lemma well_formed_strip_links (text : string) :
  well_formed text -> well_formed (strip_links text).
Proof.
  intros H. apply well_formed_encode.
  by apply forallb_true_Forall, re_sub_url_Forall, forallb_true_Forall.
Qed.

Lemma decode_strip (s : string) :
  well_formed s -> decode (strip s) = strip_chars (decode s).
Proof.
  intros H. unfold strip. apply decode_encode.
  by apply forallb_true_Forall, strip_chars_Forall, forallb_true_Forall.
Qed.

Lemma well_formed_strip (s : string) : well_formed s -> well_formed (strip s).
Proof.
  intros H. apply well_formed_encode.
  by apply forallb_true_Forall, strip_chars_Forall, forallb_true_Forall.
Qed.

Lemma decode_clean_text (text : string) :
  well_formed text ->
  decode (clean_text text) = strip_chars (strip_links_chars (decode text)).
Proof.
  intros H. unfold clean_text.
  rewrite decode_strip by by apply well_formed_strip_links.
  by rewrite decode_strip_links.
Qed.

(** C9: [strip_links] scans the characters of the text from the left;
    where [http] or [https], then [://], then at least one character that
    is not whitespace begin, it drops them with the whole run of
    non-whitespace that follows, and it keeps every other character.  So no
    such match is left in the result, and a text without one is returned
    as it is.  The cleaned text is that result trimmed: its characters are
    those of the text with the links removed and the whitespace at both
    ends taken off, among them no match and no whitespace at either end.
    Whitespace is what Python takes for it, the no-break space included.
    "Check this out https://example.com/x?y=1 now" becomes
    "Check this out  now". *)
Theorem C9_url_stripping :
  (forall l,
     strip_links_chars l
     = match re_url_match l with
       | Some rest => strip_links_chars rest
       | None =>
           match l with
           | [] => []
           | c :: l' => c :: strip_links_chars l'
           end
       end)
  /\ (forall l rest,
        re_url_match l = Some rest <->
        exists scheme c r,
          (scheme = decode "http://" \/ scheme = decode "https://")
          /\ l = scheme ++ c :: r /\ isspace c = false
          /\ rest = skip_nonspace r)
  /\ (forall l, has_url (strip_links_chars l) = false)
  /\ (forall l, has_url l = false -> strip_links_chars l = l)
  /\ (forall l, trimmed (strip_chars l)
                /\ (has_url l = false -> has_url (strip_chars l) = false)
                /\ (trimmed l -> strip_chars l = l))
  /\ (forall text,
        well_formed text ->
        decode (strip_links text) = strip_links_chars (decode text)
        /\ decode (clean_text text)
           = strip_chars (strip_links_chars (decode text))
        /\ has_url (decode (clean_text text)) = false
        /\ trimmed (decode (clean_text text)))
  /\ clean_text "Check this out https://example.com/x?y=1 now"
     = "Check this out  now"
  /\ clean_text ("see https://a.com" +:+ nbsp +:+ "next word")
     = "see " +:+ nbsp +:+ "next word"
  /\ clean_text (nbsp +:+ " Release day https://t.co/abc" +:+ ideographic_space)
     = "Release day".
Proof.
  split; [exact strip_links_chars_unfold|].
  split; [exact re_url_match_Some|].
  split; [exact strip_links_chars_no_url|].
  split; [exact strip_links_chars_id|].
  split.
  { intros l. split; [apply strip_chars_trimmed|].
    split; [apply strip_chars_no_url | apply strip_chars_id]. }
  split; [|by vm_compute].
  intros text H. split; [by apply decode_strip_links|].
  rewrite decode_clean_text by done. split; [done|]. split.
  - apply strip_chars_no_url, strip_links_chars_no_url.
  - apply strip_chars_trimmed.
Qed.

Lemma C9_url_stripping_witness :
  decode (clean_text "Check this out https://example.com/x?y=1 now")
  = strip_chars (strip_links_chars
                   (decode "Check this out https://example.com/x?y=1 now"))
  /\ has_url (decode (clean_text
                        "Check this out https://example.com/x?y=1 now"))
     = false.
Proof.
  destruct C9_url_stripping as (_ & _ & _ & _ & _ & H & _).
  destruct (H "Check this out https://example.com/x?y=1 now")
    as (_ & Hd & Hu & _); [reflexivity|].
  by split.
Defined.

(** More texts through the cleaner: the scheme alone is no match, a word
    that only ends in a scheme is cut where the match begins, the trimming
    takes the blanks that a removed link leaves at the ends, and a link
    runs on through letters that are not ASCII. *)
Example clean_text_examples :
  clean_text "  http:// x https://a httpss://b hthttp://c https://"
    = "http:// x  httpss://b ht https://"
  /\ clean_text "https://t.co/abc Release day " = "Release day"
  /\ clean_text "HTTPS://EXAMPLE.COM stays" = "HTTPS://EXAMPLE.COM stays"
  /\ clean_text "Café https://exemple.fr/café?é=1 fermé" = "Café  fermé".
Proof. by vm_compute. Qed.

(* ===================================================================== *)
(** ** The user dictionary *)
(* ===================================================================== *)

(** Of two users with one id the later one is the one looked up, as in the
    dict comprehension. *)
Example make_user_dict_later_wins :
  make_user_dict [mk_user 7 "bob" 50; mk_user 8 "eve" 3; mk_user 7 "rob" 12]
    !! 7 = Some (mk_user 7 "rob" 12).
Proof. reflexivity. Qed.

Lemma make_user_dict_snoc (users : list User.t) (user : User.t) :
  make_user_dict (users ++ [user]) !! User.id user = Some user.
Proof.
  unfold make_user_dict. rewrite foldl_snoc. apply lookup_insert_eq.
Qed.

(* ===================================================================== *)
(** ** The query *)
(* ===================================================================== *)

Lemma substring_of_refl (s : string) : substring_of s s.
Proof. exists "", "". by rewrite str_app_nil_l, str_app_nil_r. Qed.

Lemma substring_of_app_l (x a s : string) :
  substring_of x s -> substring_of x (a +:+ s).
Proof.
  intros (p & q & ->). exists (a +:+ p), q. by rewrite str_app_assoc.
Qed.

Lemma substring_of_app_r (x s b : string) :
  substring_of x s -> substring_of x (s +:+ b).
Proof.
  intros (p & q & ->). exists p, (q +:+ b). by rewrite !str_app_assoc.
Qed.

(** Every joined piece occurs in the joined string. *)
Lemma join_contains (sep x : string) (l : list string) :
  x ∈ l -> substring_of x (join sep l).
Proof.
  induction l as [|y l IH]; [by intros ?%elem_of_nil|].
  intros [-> | Hin]%elem_of_cons.
  - destruct l as [|z l]; [apply substring_of_refl|].
    cbn [join]. apply substring_of_app_r, substring_of_refl.
  - destruct l as [|z l]; [by apply elem_of_nil in Hin|].
    cbn [join]. by apply substring_of_app_l, substring_of_app_l, IH.
Qed.

(** The query holds every primary and every product keyword as a quoted
    phrase, and it ends with the three fixed filters. *)
Theorem query_holds_every_keyword (cfg : KeywordConfig) (kw : string) :
  kw ∈ PRIMARY_KEYWORDS cfg ++ PRODUCT cfg ->
  substring_of (quoted kw) (query cfg)
  /\ ends_with " -is:retweet -is:reply lang:en" (query cfg).
Proof.
  intros Hin. split.
  - unfold query. apply substring_of_app_l, substring_of_app_r.
    apply join_contains. unfold keyword_clauses.
    apply list_elem_of_fmap. by exists kw.
  - exists ("(" +:+ join " OR " (keyword_clauses cfg) +:+ ")").
    unfold query. by rewrite !str_app_assoc.
Qed.

Lemma query_holds_every_keyword_witness :
  substring_of (quoted "cargo") (query scenario_config)
  /\ ends_with " -is:retweet -is:reply lang:en" (query scenario_config).
Proof.
  apply (query_holds_every_keyword scenario_config "cargo").
  apply list_elem_of_In. simpl. auto.
Defined.

(** Whatever the search answers and whatever follows, a run issues one
    search call and no second one: a search that raised is not retried. *)
Theorem run_searches_once (cfg : KeywordConfig) (env : Env) :
  searches (final (run cfg env)) = [(query cfg, clock_one_day_ago env)]
  /\ length (searches (final (run cfg env))) = 1%nat.
Proof. by rewrite run_searches. Qed.

(* ===================================================================== *)
(** ** The header and the number of calls *)
(* ===================================================================== *)

Lemma length_item_payloads (cfg : KeywordConfig) (user_dict : gmap Z User.t)
    (thread_ts : option string) (tweets : list Tweet.t) :
  length (item_payloads cfg user_dict thread_ts tweets)
  = length (filter (fun t => is_Some (accepted cfg user_dict t)) tweets).
Proof.
  induction tweets as [|t tweets IH]; [done|].
  rewrite item_payloads_cons, List.length_app, IH, filter_cons.
  unfold body_posts. destruct (accepted cfg user_dict t) as [user|].
  - rewrite decide_True by eauto. done.
  - rewrite decide_False; [done|]. by intros [? ?].
Qed.

Lemma item_payloads_none (cfg : KeywordConfig) (user_dict : gmap Z User.t)
    (thread_ts : option string) (tweets : list Tweet.t) :
  (forall t, t ∈ tweets -> accepted cfg user_dict t = None) ->
  item_payloads cfg user_dict thread_ts tweets = [].
Proof.
  induction tweets as [|t tweets IH]; [done|]. intros H.
  rewrite item_payloads_cons, IH.
  - unfold body_posts. rewrite H; [done|]. apply elem_of_cons; auto.
  - intros t' Hin. apply H, elem_of_cons. auto.
Qed.

Lemma elem_of_sorted_tweets (t : Tweet.t) (tweets : list Tweet.t) :
  t ∈ sorted_tweets tweets -> t ∈ tweets.
Proof.
  unfold sorted_tweets. intros Hin.
  rewrite <- (sorted_reverse_perm impression_count tweets).
  eapply elem_of_submseteq; [exact Hin | apply submseteq_take].
Qed.

(** The header goes out before any filter runs.  So the first payload of a
    run that found posts is the header, the run makes one call more than it
    accepts posts, and when every post is rejected the header is posted all
    the same, alone. *)
Theorem header_posted_before_filtering (cfg : KeywordConfig) (env : Env)
    (r : SearchResponse) (tweets : list Tweet.t) (users : list User.t) :
  search_recent_tweets env (query cfg) (clock_one_day_ago env)
    = ReturnsResponse r ->
  data r = Some tweets -> tweets <> [] -> includes_users r = Some users ->
  let user_dict := make_user_dict users in
  head (posts (final (run cfg env))) = Some (header_payload env)
  /\ length (posts (final (run cfg env)))
     = S (length (filter (fun t => is_Some (accepted cfg user_dict t))
                         (sorted_tweets tweets)))
  /\ ((forall t, t ∈ tweets -> accepted cfg user_dict t = None) ->
      posts (final (run cfg env)) = [header_payload env]).
Proof.
  intros Hs Hd Hne Hu user_dict.
  rewrite (run_found cfg env r tweets users) by done. simpl.
  split; [done|]. split; [by rewrite length_item_payloads|].
  intros Hnone. rewrite item_payloads_none; [done|].
  intros t Hin. by apply Hnone, elem_of_sorted_tweets.
Qed.

Lemma header_posted_before_filtering_witness :
  posts (final (run scenario_config
                    (mk_env (found [mk_tweet 9 7 "nothing to see" 4]
                                   [scenario_user]) ok_webhook)))
  = [header_payload scenario_env].
Proof.
  destruct (header_posted_before_filtering scenario_config
              (mk_env (found [mk_tweet 9 7 "nothing to see" 4]
                             [scenario_user]) ok_webhook)
              {| data := Some [mk_tweet 9 7 "nothing to see" 4];
                 includes_users := Some [scenario_user] |}
              [mk_tweet 9 7 "nothing to see" 4] [scenario_user]
              eq_refl eq_refl ltac:(discriminate) eq_refl)
    as (_ & _ & Halone).
  apply Halone. intros t Hin. apply list_elem_of_In in Hin.
  destruct Hin as [<- | []]. reflexivity.
Defined.

(** A run makes at most 101 webhook calls: the header and one call for each
    of at most 100 ranked posts. *)
Theorem run_posts_at_most_101 (cfg : KeywordConfig) (env : Env) :
  (length (posts (final (run cfg env))) <= 101)%nat.
Proof.
  rewrite run_posts. unfold expected_posts.
  destruct (search_recent_tweets env _ _) as [e|e|r]; simpl; try lia.
  destruct (truthy_list (data r)); simpl; [|lia].
  destruct (includes_users r) as [users|]; simpl; [|lia].
  rewrite length_item_payloads.
  pose proof (length_filter
                (fun t => is_Some (accepted cfg (make_user_dict users) t))
                (sorted_tweets (default [] (data r)))) as Hf.
  unfold sorted_tweets in *. rewrite length_take in Hf. lia.
Qed.

(* ===================================================================== *)
(** ** Exceptions *)
(* ===================================================================== *)

(** A search that answers with posts and without users ends the run with
    the [KeyError] of [tweets.includes["users"]].  It is raised after the
    one search call and before the header, so nothing was posted and
    nothing was logged. *)
Theorem run_raises_for_missing_users (cfg : KeywordConfig) (env : Env)
    (r : SearchResponse) :
  search_recent_tweets env (query cfg) (clock_one_day_ago env)
    = ReturnsResponse r ->
  truthy_list (data r) = true ->
  includes_users r = None ->
  run cfg env
  = Raises (KeyError "users")
      {| searches := [(query cfg, clock_one_day_ago env)];
         posts := []; log := [] |}.
Proof.
  intros Hs Hd Hu. rewrite run_unfold. simpl. by rewrite Hs, Hd, Hu.
Qed.

Lemma run_raises_for_missing_users_witness :
  run scenario_config usersless_env
  = Raises (KeyError "users")
      {| searches := [(query scenario_config, "2024-05-01T12:00:00+00:00")];
         posts := []; log := [] |}.
Proof.
  apply (run_raises_for_missing_users scenario_config usersless_env
           {| data := Some [mk_tweet 1001 7 "I like rust" 10];
              includes_users := None |});
    reflexivity.
Defined.

(** The formatter by itself raises [KeyError] on a user whose public
    metrics have no [followers_count]; otherwise it returns its four
    blocks: the divider, the section with the author, the follower count
    and the cleaned text, the context line with the counters, and the
    section with the link.  Either way it has no effect. *)
Theorem format_tweet_blockkit_needs_followers_count (tweet : Tweet.t)
    (user : User.t) (w : World) :
  (User.public_metrics user !! "followers_count" = None ->
   format_tweet_blockkit tweet user w = Raises (KeyError "followers_count") w)
  /\ (forall n,
        User.public_metrics user !! "followers_count" = Some n ->
        format_tweet_blockkit tweet user w
        = Returns
            [ DividerBlock;
              SectionBlock
                ("*New tweet by @" +:+ User.username user
                   +:+ "* _(Followers: " +:+ pretty n +:+ ")_"
                   +:+ String newline (String newline "")
                   +:+ clean_text (tweet_text tweet));
              ContextBlock [counters_line tweet];
              SectionBlock
                ("<https://twitter.com/" +:+ User.username user
                   +:+ "/status/" +:+ pretty (Tweet.id tweet)
                   +:+ "|🔗 View on Twitter>") ]
            w)
  /\ format_tweet_blockkit
       (mk_tweet 1001 7 " I like rust https://t.co/x1 " 10) scenario_user w
     = Returns
         [ DividerBlock;
           SectionBlock
             ("*New tweet by @bob* _(Followers: 50)_"
                +:+ String newline (String newline "I like rust"));
           ContextBlock ["👍 0   🔁 0   💬 0   👀 10"];
           SectionBlock
             "<https://twitter.com/bob/status/1001|🔗 View on Twitter>" ]
         w.
Proof.
  split; [|split].
  - intros H. unfold format_tweet_blockkit, bind. by rewrite H.
  - intros n H. unfold format_tweet_blockkit, bind, tweet_blocks, tweet_url.
    rewrite H. simpl. unfold ret. do 5 f_equal.
    by rewrite !str_app_assoc.
  - by vm_compute.
Qed.

Lemma format_tweet_blockkit_witness :
  format_tweet_blockkit scenario_tweet (user_without_followers 7 "bob")
                        empty_world
  = Raises (KeyError "followers_count") empty_world.
Proof.
  by apply (format_tweet_blockkit_needs_followers_count scenario_tweet
              (user_without_followers 7 "bob") empty_world).
Defined.

(* ===================================================================== *)
(** ** Authors *)
(* ===================================================================== *)

(** The dictionary of users gives, for an id, the last user of the list
    with that id, and nothing for an id that no user has. *)
Lemma make_user_dict_lookup (users : list User.t) (i : Z) :
  make_user_dict users !! i = last (filter (fun u => User.id u = i) users).
Proof.
  induction users as [|user users IH] using rev_ind; [done|].
  unfold make_user_dict in *.
  rewrite foldl_snoc, filter_app, last_app, lookup_insert, IH, filter_cons.
  by destruct (decide (User.id user = i)).
Qed.

(** A tweet whose author is not among the users of the response is passed
    over in silence: no payload, no log record.  An author who is there
    more than once is taken from the last entry. *)
Theorem unknown_author_skipped_silently (cfg : KeywordConfig) (env : Env)
    (users : list User.t) (thread_ts : option string) (tweet : Tweet.t)
    (w : World) :
  (make_user_dict users !! Tweet.author_id tweet
   = last (filter (fun u => User.id u = Tweet.author_id tweet) users))
  /\ ((forall u, u ∈ users -> User.id u <> Tweet.author_id tweet) ->
      loop_body cfg env (make_user_dict users) thread_ts tweet w
      = Returns tt w).
Proof.
  split; [apply make_user_dict_lookup|]. intros Hnone.
  unfold loop_body. rewrite make_user_dict_lookup.
  replace (filter _ users) with (@nil User.t); [done|].
  symmetry. induction users as [|u users IH]; [done|].
  rewrite filter_cons_False.
  - apply IH. intros u' Hin. apply Hnone, elem_of_cons. auto.
  - apply Hnone, elem_of_cons. auto.
Qed.

(* ===================================================================== *)
(** ** The thread reference of a payload *)
(* ===================================================================== *)

(** The notifier puts a thread identifier it is given into the payload,
    unless the identifier is empty; and the loop hands its [thread_ts] to
    the notifier unchanged.  So an accepted tweet would go out under a
    thread, were the loop given one. *)
Theorem thread_reference_passed_through (cfg : KeywordConfig) (env : Env)
    (user_dict : gmap Z User.t) (ts : string) (tweet : Tweet.t)
    (user : User.t) (w : World) :
  accepted cfg user_dict tweet = Some user ->
  ts <> "" ->
  exists p,
    posts (final (loop_body cfg env user_dict (Some ts) tweet w))
      = posts w ++ [p]
    /\ payload_thread_ts p = Some ts
    /\ blocks p = tweet_blocks tweet user (followers_of user)
    /\ payload_thread_ts (make_payload (blocks p) (Some "")) = None
    /\ payload_thread_ts (make_payload (blocks p) None) = None.
Proof.
  intros Hacc Hts. exists (item_payload (Some ts) tweet user).
  rewrite loop_body_posts. unfold body_posts. rewrite Hacc.
  split; [done|]. split; [|done].
  unfold item_payload, make_payload. simpl. by destruct ts.
Qed.

Lemma thread_reference_passed_through_witness :
  exists p,
    posts (final (loop_body scenario_config scenario_env
                            (make_user_dict [scenario_user])
                            (Some "1714651200.000100") scenario_tweet
                            empty_world))
      = posts empty_world ++ [p]
    /\ payload_thread_ts p = Some "1714651200.000100"
    /\ blocks p = tweet_blocks scenario_tweet scenario_user
                               (followers_of scenario_user)
    /\ payload_thread_ts (make_payload (blocks p) (Some "")) = None
    /\ payload_thread_ts (make_payload (blocks p) None) = None.
Proof.
  apply (thread_reference_passed_through scenario_config scenario_env
           (make_user_dict [scenario_user]) "1714651200.000100"
           scenario_tweet scenario_user empty_world).
  - reflexivity.
  - discriminate.
Defined.

Lemma unknown_author_skipped_silently_witness :
  loop_body scenario_config scenario_env (make_user_dict [scenario_user]) None
            (mk_tweet 3001 8 "rust by a stranger" 70) empty_world
  = Returns tt empty_world.
Proof.
  apply (unknown_author_skipped_silently scenario_config scenario_env
           [scenario_user] None (mk_tweet 3001 8 "rust by a stranger" 70)
           empty_world).
  intros u Hin. apply list_elem_of_In in Hin. destruct Hin as [<- | []].
  discriminate.
Defined.

(* ===================================================================== *)
(** ** More on cleaning the text *)
(* ===================================================================== *)

(** On characters, cleaning twice gives what cleaning once gives. *)
Lemma clean_chars_idempotent (l : list N) :
  strip_links_chars (strip_links_chars l) = strip_links_chars l
  /\ strip_chars (strip_chars l) = strip_chars l
  /\ strip_chars (strip_links_chars (strip_chars (strip_links_chars l)))
     = strip_chars (strip_links_chars l).
Proof.
  split; [by rewrite strip_links_chars_id by apply strip_links_chars_no_url|].
  split; [by rewrite strip_chars_id by apply strip_chars_trimmed|].
  rewrite (strip_links_chars_id (strip_chars _))
    by apply strip_chars_no_url, strip_links_chars_no_url.
  by rewrite strip_chars_id by apply strip_chars_trimmed.
Qed.

(** Cleaning a text twice gives what cleaning it once gives, and so do the
    removal of links and the trimming each by itself. *)
Theorem clean_text_idempotent (text : string) :
  well_formed text ->
  strip_links (strip_links text) = strip_links text
  /\ strip (strip text) = strip text
  /\ clean_text (clean_text text) = clean_text text.
Proof.
  intros H. destruct (clean_chars_idempotent (decode text)) as (Hl & Hs & Hc).
  split; [|split].
  - unfold strip_links at 1. by rewrite decode_strip_links, Hl.
  - unfold strip at 1. by rewrite decode_strip, Hs.
  - unfold clean_text at 1, strip at 1, strip_links at 1.
    rewrite decode_clean_text by done.
    rewrite (strip_links_chars_id (strip_chars _))
      by apply strip_chars_no_url, strip_links_chars_no_url.
    rewrite decode_encode.
    + rewrite strip_chars_id by apply strip_chars_trimmed.
      unfold clean_text, strip. by rewrite decode_strip_links.
    + by apply forallb_true_Forall, strip_chars_Forall, re_sub_url_Forall,
        forallb_true_Forall.
Qed.

Lemma clean_text_idempotent_witness :
  clean_text (clean_text ("see https://a.com" +:+ nbsp +:+ "next word "))
  = clean_text ("see https://a.com" +:+ nbsp +:+ "next word ").
Proof.
  by apply (clean_text_idempotent
              ("see https://a.com" +:+ nbsp +:+ "next word ")).
Defined.

Lemma whitespace_of_skip_nonspace (l : list N) :
  whitespace_of (skip_nonspace l) = whitespace_of l.
Proof.
  induction l as [|c l IH]; [done|]. simpl.
  destruct (isspace c) eqn:Hc; [|done]. simpl. by rewrite Hc.
Qed.

Lemma re_url_match_whitespace (l rest : list N) :
  re_url_match l = Some rest -> whitespace_of rest = whitespace_of l.
Proof.
  intros (scheme & c & r & Hs & -> & Hc & ->)%re_url_match_Some.
  rewrite whitespace_of_skip_nonspace. unfold whitespace_of.
  rewrite List.filter_app. simpl. rewrite Hc.
  by destruct Hs as [-> | ->].
Qed.

Lemma re_sub_url_whitespace (fuel : nat) (l : list N) :
  whitespace_of (re_sub_url fuel l) = whitespace_of l.
Proof.
  revert l. induction fuel as [|fuel IH]; intros l; [done|]. simpl.
  destruct (re_url_match l) as [rest|] eqn:Hm.
  - rewrite IH. by apply re_url_match_whitespace.
  - destruct l as [|c l]; [done|]. simpl. by rewrite IH.
Qed.

Lemma re_sub_url_length (fuel : nat) (l : list N) :
  (length (re_sub_url fuel l) <= length l)%nat.
Proof.
  revert l. induction fuel as [|fuel IH]; intros l; [done|]. simpl.
  destruct (re_url_match l) as [rest|] eqn:Hm.
  - apply re_url_match_length in Hm. specialize (IH rest). lia.
  - destruct l as [|c l]; [done|]. simpl. specialize (IH l). lia.
Qed.

(** Removing links removes no whitespace: the blanks, the line breaks and
    the other whitespace characters of the text all stay, in order (which
    is why a link between two blanks leaves both).  The result has no more
    characters than the text. *)
Theorem strip_links_keeps_whitespace (text : string) :
  well_formed text ->
  whitespace_of (decode (strip_links text)) = whitespace_of (decode text)
  /\ (length (decode (strip_links text)) <= length (decode text))%nat.
Proof.
  intros H. rewrite decode_strip_links by done.
  split; [apply re_sub_url_whitespace | apply re_sub_url_length].
Qed.

Lemma strip_links_keeps_whitespace_witness :
  whitespace_of
    (decode (strip_links ("see https://a.com" +:+ nbsp +:+ "next word ")))
  = [0x20; 0xA0; 0x20; 0x20]%N.
Proof.
  by rewrite (proj1 (strip_links_keeps_whitespace
                       ("see https://a.com" +:+ nbsp +:+ "next word ")
                       eq_refl)).
Defined.

(* ===================================================================== *)
(** ** More on the ranking *)
(* ===================================================================== *)

Lemma descending_app_inv {A : Type} (key : A -> Z) (l1 l2 : list A) :
  descending key (l1 ++ l2) ->
  descending key l1
  /\ forall x1 x2, x1 ∈ l1 -> x2 ∈ l2 -> key x2 <= key x1.
Proof.
  unfold descending. induction l1 as [|x l1 IH]; simpl; intros H.
  - split; [apply SSorted_nil|]. by intros x1 x2 ?%elem_of_nil.
  - apply StronglySorted_inv in H as [H Hx].
    destruct (IH H) as [Hl1 Hcross].
    apply Forall_app in Hx as [Hx1 Hx2]. split.
    + by apply SSorted_cons.
    + intros x1 x2 [-> | Hin]%elem_of_cons Hin2; [|by apply Hcross].
      rewrite Forall_forall in Hx2. by apply Hx2.
Qed.

(** A list that is ranked already is left as it is. *)
Lemma sorted_reverse_id {A : Type} (key : A -> Z) (l : list A) :
  descending key l -> sorted_reverse key l = l.
Proof.
  intros Hd. apply stable_descending_unique with (key := key);
    [apply sorted_reverse_descending | done |].
  intros k. symmetry. apply sorted_reverse_stable.
Qed.

(** The cap keeps the top: no post that is cut off has more impressions
    than one that is kept; and nothing is cut off from at most 100 posts,
    which is all the search is asked for. *)
Theorem cap_keeps_most_viewed (tweets : list Tweet.t) :
  (forall kept cut,
     kept ∈ sorted_tweets tweets ->
     cut ∈ drop 100 (sorted_reverse impression_count tweets) ->
     impression_count cut <= impression_count kept)
  /\ sorted_tweets tweets ⊆+ tweets
  /\ ((length tweets <= 100)%nat -> Permutation (sorted_tweets tweets) tweets).
Proof.
  split; [|split].
  - intros kept cut Hkept Hcut.
    pose proof (sorted_reverse_descending impression_count tweets) as Hd.
    rewrite <- (take_drop 100) in Hd.
    apply descending_app_inv in Hd as [_ Hcross]. by apply Hcross.
  - unfold sorted_tweets.
    rewrite <- (sorted_reverse_perm impression_count tweets) at 2.
    apply submseteq_take.
  - intros Hlen. unfold sorted_tweets. rewrite take_ge.
    + apply sorted_reverse_perm.
    + by rewrite (Permutation_length (sorted_reverse_perm _ tweets)).
Qed.

Lemma cap_keeps_most_viewed_witness :
  Permutation (sorted_tweets four_tweets) four_tweets.
Proof.
  apply (cap_keeps_most_viewed four_tweets). simpl. lia.
Defined.

(** Ranking what is ranked changes nothing: [sorted_tweets] of its own
    result is that result. *)
Theorem sorted_tweets_idempotent (tweets : list Tweet.t) :
  sorted_tweets (sorted_tweets tweets) = sorted_tweets tweets.
Proof.
  unfold sorted_tweets.
  rewrite (sorted_reverse_id impression_count (take 100 _)).
  - apply take_idemp.
  - pose proof (sorted_reverse_descending impression_count tweets) as Hd.
    rewrite <- (take_drop 100) in Hd.
    by apply descending_app_inv in Hd as [? _].
Qed.

(* ===================================================================== *)
(** ** Configurations at the edge *)
(* ===================================================================== *)

Lemma accepted_has_keyword (cfg : KeywordConfig) (user_dict : gmap Z User.t)
    (tweet : Tweet.t) (user : User.t) :
  accepted cfg user_dict tweet = Some user ->
  has_keyword cfg (tweet_text tweet) = true.
Proof.
  unfold accepted. destruct (user_dict !! _); [|done].
  destruct (has_spam_token cfg _); [done|].
  destruct (str_in "ransomware" _); [done|].
  destruct (followers_of _ <? 20); [done|].
  by destruct (has_keyword cfg _).
Qed.

(** A keywords file without the two keyword fields loads as two empty
    lists, and then no tweet passes the keyword check: whatever the search
    returns, the run posts nothing, or the header and nothing under it. *)
Theorem no_keywords_no_items (keyword_config : gmap string (list string))
    (env : Env) :
  keyword_config !! "primary_keywords" = None ->
  keyword_config !! "product_keywords" = None ->
  let cfg := load_keyword_config keyword_config in
  PRIMARY_KEYWORDS cfg = [] /\ PRODUCT cfg = []
  /\ (forall user_dict tweet, accepted cfg user_dict tweet = None)
  /\ (posts (final (run cfg env)) = []
      \/ posts (final (run cfg env)) = [header_payload env]).
Proof.
  intros Hp Hq cfg.
  assert (PRIMARY_KEYWORDS cfg = []) as Hp' by (simpl; by rewrite Hp).
  assert (PRODUCT cfg = []) as Hq' by (simpl; by rewrite Hq).
  assert (forall user_dict tweet, accepted cfg user_dict tweet = None) as Hacc.
  { intros user_dict tweet.
    destruct (accepted cfg user_dict tweet) as [user|] eqn:H; [|done].
    apply accepted_has_keyword in H. unfold has_keyword in H.
    by rewrite Hp', Hq' in H. }
  split; [done|]. split; [done|]. split; [done|].
  rewrite run_posts. unfold expected_posts.
  destruct (search_recent_tweets env _ _) as [e|e|r]; auto.
  destruct (truthy_list (data r)); auto.
  destruct (includes_users r) as [users|]; auto.
  right. by rewrite item_payloads_none.
Qed.

Lemma no_keywords_no_items_witness :
  posts (final (run (load_keyword_config {[ "service_keywords" := ["Malware"] ]})
                    scenario_env)) = []
  \/ posts (final (run (load_keyword_config
                          {[ "service_keywords" := ["Malware"] ]})
                       scenario_env))
     = [header_payload scenario_env].
Proof.
  apply (no_keywords_no_items {[ "service_keywords" := ["Malware"] ]}
           scenario_env); reflexivity.
Defined.

Lemma str_in_empty (s : string) : str_in "" s = true.
Proof. by destruct s. Qed.

(** An empty string among the keywords decides for every text, since the
    empty string occurs in every text: among the service keywords it has
    every tweet rejected, and among the primary or product keywords it
    opens the keyword check to every tweet. *)
Theorem empty_keyword_matches_every_text (cfg : KeywordConfig) :
  ("" ∈ SERVICE cfg ->
   forall user_dict tweet, accepted cfg user_dict tweet = None)
  /\ ("" ∈ PRIMARY_KEYWORDS cfg ++ PRODUCT cfg ->
      forall text, has_keyword cfg text = true).
Proof.
  split.
  - intros Hin user_dict tweet. unfold accepted.
    destruct (user_dict !! _); [|done].
    replace (has_spam_token cfg (tweet_text tweet)) with true; [done|].
    symmetry. unfold has_spam_token. apply existsb_exists.
    exists "". split; [by apply list_elem_of_In|]. apply str_in_empty.
  - intros Hin text. unfold has_keyword. apply existsb_exists.
    exists "". split; [by apply list_elem_of_In|]. apply str_in_empty.
Qed.

Lemma empty_keyword_matches_every_text_witness :
  accepted {| PRIMARY_KEYWORDS := ["rust"]; PRODUCT := []; SERVICE := [""] |}
           (make_user_dict [scenario_user]) scenario_tweet = None.
Proof.
  apply (empty_keyword_matches_every_text
           {| PRIMARY_KEYWORDS := ["rust"]; PRODUCT := []; SERVICE := [""] |}).
  apply list_elem_of_In. simpl. auto.
Defined.

(* ===================================================================== *)
(** ** What the log says *)
(* ===================================================================== *)

Lemma webhook_errors_all_ok (env : Env) (n : nat) (ps : list Payload) :
  (forall k p, Response.status_code (webhook env k p) = 200) ->
  webhook_errors env n ps = [].
Proof.
  intros Hok. revert n. induction ps as [|p ps IH]; intros n; [done|].
  simpl. unfold webhook_error. by rewrite Hok, IH.
Qed.

(** With a webhook that answers 200 to every call, a run whose search
    returned writes no ERROR record. *)
Theorem no_error_logged_when_all_ok (cfg : KeywordConfig) (env : Env)
    (r : SearchResponse) :
  search_recent_tweets env (query cfg) (clock_one_day_ago env)
    = ReturnsResponse r ->
  (forall k p, Response.status_code (webhook env k p) = 200) ->
  List.filter is_error (log (final (run cfg env))) = [].
Proof.
  intros Hs Hok. rewrite (run_error_records cfg env r Hs).
  by apply webhook_errors_all_ok.
Qed.

Lemma no_error_logged_when_all_ok_witness :
  List.filter is_error (log (final (run scenario_config four_env))) = [].
Proof.
  apply (no_error_logged_when_all_ok scenario_config four_env
           {| data := Some four_tweets;
              includes_users := Some [scenario_user] |}).
  - reflexivity.
  - reflexivity.
Defined.

Lemma matched_webhook_error (env : Env) (n : nat) (p : Payload) :
  List.filter is_matched_record (webhook_error env n p) = [].
Proof. unfold webhook_error. simpl. by destruct (_ =? 200). Qed.

Lemma body_log_matched (cfg : KeywordConfig) (env : Env)
    (user_dict : gmap Z User.t) (thread_ts : option string) (n : nat)
    (tweet : Tweet.t) :
  length (List.filter is_matched_record
                      (body_log cfg env user_dict thread_ts n tweet))
  = length (body_posts cfg user_dict thread_ts tweet).
Proof.
  unfold body_log, body_posts, accepted.
  destruct (user_dict !! Tweet.author_id tweet) as [user|]; [|done].
  destruct (has_spam_token cfg _); [done|].
  destruct (str_in "ransomware" _); [done|].
  destruct (followers_of user <? 20); [done|].
  destruct (has_keyword cfg _); [|done].
  cbn [List.filter is_matched_record]. rewrite strip_prefix_app.
  simpl. by rewrite matched_webhook_error.
Qed.

Lemma loop_log_matched (cfg : KeywordConfig) (env : Env)
    (user_dict : gmap Z User.t) (thread_ts : option string) (n : nat)
    (tweets : list Tweet.t) :
  length (List.filter is_matched_record
                      (loop_log cfg env user_dict thread_ts n tweets))
  = length (item_payloads cfg user_dict thread_ts tweets).
Proof.
  revert n. induction tweets as [|tweet tweets IH]; intros n; [done|].
  cbn [loop_log]. rewrite List.filter_app, item_payloads_cons.
  by rewrite !List.length_app, body_log_matched, IH.
Qed.

(** The log counts the items: a run writes as many "Tweet matched" records
    as it posts item messages, that is, one less than it posts payloads
    when it posts any. *)
Theorem matched_records_count_item_posts (cfg : KeywordConfig) (env : Env)
    (r : SearchResponse) (tweets : list Tweet.t) (users : list User.t) :
  search_recent_tweets env (query cfg) (clock_one_day_ago env)
    = ReturnsResponse r ->
  data r = Some tweets -> tweets <> [] -> includes_users r = Some users ->
  S (length (List.filter is_matched_record (log (final (run cfg env)))))
  = length (posts (final (run cfg env))).
Proof.
  intros Hs Hd Hne Hu.
  rewrite (run_found cfg env r tweets users) by done. simpl.
  rewrite List.filter_app, List.length_app, loop_log_matched.
  by rewrite matched_webhook_error.
Qed.

Lemma matched_records_count_item_posts_witness :
  S (length (List.filter is_matched_record
                         (log (final (run scenario_config moody_env)))))
  = length (posts (final (run scenario_config moody_env))).
Proof.
  apply (matched_records_count_item_posts scenario_config moody_env
           {| data := Some [scenario_tweet; mk_tweet 1002 7 "cargo build" 3];
              includes_users := Some [scenario_user] |}
           [scenario_tweet; mk_tweet 1002 7 "cargo build" 3] [scenario_user]);
    [reflexivity | reflexivity | discriminate | reflexivity].
Defined.

(* ===================================================================== *)
(** ** The extended text *)
(* ===================================================================== *)

(** The filters and the message read the extended text of a tweet when it
    has one under [full_text], and the truncated text otherwise (no
    [note_tweet], or one without that key); the log line of an accepted
    tweet shows the truncated text in either case. *)
Theorem extended_text_is_what_counts (cfg : KeywordConfig) (env : Env)
    (user_dict : gmap Z User.t) (thread_ts : option string)
    (tweet : Tweet.t) (w : World) :
  (Tweet.note_tweet tweet = None -> tweet_text tweet = Tweet.text tweet)
  /\ (forall d,
        Tweet.note_tweet tweet = Some d -> d !! "full_text" = None ->
        tweet_text tweet = Tweet.text tweet)
  /\ (forall d full_text,
        Tweet.note_tweet tweet = Some d ->
        d !! "full_text" = Some full_text ->
        tweet_text tweet = full_text
        /\ forall user,
             accepted cfg user_dict tweet = Some user ->
             (exists kw, kw ∈ PRIMARY_KEYWORDS cfg ++ PRODUCT cfg
                         /\ substring_of kw full_text)
             /\ log (final (loop_body cfg env user_dict thread_ts tweet w))
                = log w
                    ++ (INFO, "Tweet matched: " +:+ Tweet.text tweet)
                    :: webhook_error env (length (posts w))
                         (item_payload thread_ts tweet user)
             /\ blocks (item_payload thread_ts tweet user) !! 1%nat
                = Some (SectionBlock
                          ("*New tweet by @" +:+ User.username user
                             +:+ "* _(Followers: "
                             +:+ pretty (followers_of user)
                             +:+ ")_" +:+ String newline (String newline "")
                             +:+ strip (strip_links full_text)))).
Proof.
  split; [|split].
  - intros H. unfold tweet_text. by rewrite H.
  - intros d Hd Hf. unfold tweet_text. rewrite Hd. simpl. by rewrite Hf.
  - intros d full_text Hd Hf.
    assert (tweet_text tweet = full_text) as Ht.
    { unfold tweet_text. rewrite Hd. simpl. by rewrite Hf. }
    split; [done|]. intros user Hacc. split; [|split].
    + rewrite <- Ht. apply has_keyword_spec.
      by apply (accepted_has_keyword cfg user_dict tweet user).
    + rewrite loop_body_spec. simpl. f_equal.
      revert Hacc. unfold body_log, accepted.
      destruct (user_dict !! _) as [u|]; [|done].
      destruct (has_spam_token cfg _); [done|].
      destruct (str_in "ransomware" _); [done|].
      destruct (followers_of u <? 20); [done|].
      destruct (has_keyword cfg _); [|done]. by intros [= ->].
    + simpl. unfold clean_text. by rewrite Ht.
Qed.

Lemma extended_text_is_what_counts_witness :
  tweet_text long_tweet = "A long post about cargo"
  /\ accepted scenario_config (make_user_dict [scenario_user]) long_tweet
     = Some scenario_user
  /\ log (final (loop_body scenario_config scenario_env
                           (make_user_dict [scenario_user]) None long_tweet
                           empty_world))
     = [(INFO, "Tweet matched: A long post about...")].
Proof.
  destruct (extended_text_is_what_counts scenario_config scenario_env
              (make_user_dict [scenario_user]) None long_tweet empty_world)
    as (_ & _ & Hfull).
  destruct (Hfull {[ "full_text" := "A long post about cargo" ]}
                  "A long post about cargo" eq_refl eq_refl)
    as (Htext & Hacc).
  destruct (Hacc scenario_user eq_refl) as (_ & Hlog & _).
  split; [exact Htext|]. split; [reflexivity|]. rewrite Hlog. reflexivity.
Defined.
